(** * llm/main.py: the fallback loop of the [/llm/generate] endpoint

    A shallow embedding of [src/llm/main.py].  Python values coming out of
    [response.json()] are modelled as an untyped value tree, exceptions as
    an error monad, and the upstream HTTP service as an oracle threaded
    through the loop; every [client.post] is recorded in a call log. *)

From Stdlib Require Import ZArith SpecFloat Ascii.
From stdpp Require Import base strings gmap list.

Set Warnings "-register-all".

Local Open Scope string_scope.
Local Open Scope Z_scope.

(** ** Python values *)

(** What [json.loads] can produce: [None], [bool], [int], [float], [str],
    [list] and [dict] with string keys. *)
Inductive pyval : Type :=
| PyNone
| PyBool (b : bool)
| PyInt (z : Z)
| PyFloat (f : spec_float)
| PyStr (s : string)
| PyList (l : list pyval)
| PyDict (d : gmap string pyval).

(** Exceptions that can be in flight inside [generate].  [TimeoutException]
    stands for [httpx.TimeoutException] and its subclasses; [RequestError]
    for the remaining subclasses of [httpx.RequestError]; [InvalidURL] for
    the httpx exceptions that are not request errors; the others are the
    builtins raised by [response.json()], attribute access and indexing. *)
Inductive exn : Type :=
| TimeoutException
| RequestError
| InvalidURL
| JSONDecodeError
| AttributeError
| TypeError
| IndexError
| KeyError.

(** The two classes named by the [except] clauses. *)
Inductive exn_class : Type := cls_TimeoutException | cls_RequestError.

(** [httpx.TimeoutException] is a subclass of [httpx.RequestError]. *)
Definition isinstance (e : exn) (c : exn_class) : bool :=
  match c, e with
  | cls_TimeoutException, TimeoutException => true
  | cls_RequestError, (TimeoutException | RequestError) => true
  | _, _ => false
  end.

(** A computation that returns or raises. *)
Inductive res (A : Type) : Type :=
| Return (a : A)
| Raise (e : exn).
Arguments Return {A} a.
Arguments Raise {A} e.

#[global] Instance res_ret : MRet res := λ A a, Return a.
#[global] Instance res_bind : MBind res := λ A B k c,
  match c with
  | Return a => k a
  | Raise e => Raise e
  end.

(** [v.get(key, default)]: only dicts have the method. *)
Definition py_get (v : pyval) (key : string) (dflt : pyval) : res pyval :=
  match v with
  | PyDict d => Return (default dflt (d !! key))
  | _ => Raise AttributeError
  end.

(** [v[0]].  A dict decoded from JSON has string keys only, so the integer
    key is missing. *)
Definition py_item0 (v : pyval) : res pyval :=
  match v with
  | PyList (x :: _) => Return x
  | PyList [] => Raise IndexError
  | PyStr (String c _) => Return (PyStr (String c EmptyString))
  | PyStr EmptyString => Raise IndexError
  | PyDict _ => Raise KeyError
  | PyNone | PyBool _ | PyInt _ | PyFloat _ => Raise TypeError
  end.

(** [bool(v)], as tested by [if text:]: numbers are true unless zero,
    containers unless their [len] is zero. *)
Definition truthy (v : pyval) : bool :=
  match v with
  | PyNone => false
  | PyBool b => b
  | PyInt z => negb (Z.eqb z 0)
  | PyFloat (S754_zero _) => false
  | PyFloat _ => true
  | PyStr s => negb (Nat.eqb (String.length s) 0)
  | PyList l => negb (Nat.eqb (length l) 0)
  | PyDict d => negb (Nat.eqb (size d) 0)
  end.

(** ** Request, configuration and HTTP exchange *)

(** [class Message(BaseModel)] and [class LlmRequest(BaseModel)]. *)
Record Message := { role : string; content : string }.
Record LlmRequest := { messages : list Message; max_tokens : Z }.

(** [message.model_dump()]. *)
Definition model_dump (m : Message) : pyval :=
  PyDict (list_to_map [("role", PyStr (role m)); ("content", PyStr (content m))]).

(** The module-level constants read from the environment at import time. *)
Record Config := {
  OPENROUTER_API_KEY : string;
  OPENROUTER_BASE_URL : string;
  MODEL_CANDIDATES : list string;
  REQUEST_TIMEOUT_SEC : spec_float;
  MAX_OUTPUT_TOKENS : Z
}.

(** The arguments of one [client.post(url, headers=..., json=...)] on a
    client built with [timeout=REQUEST_TIMEOUT_SEC]. *)
Record HttpRequest := {
  post_url : string;
  post_headers : gmap string string;
  post_json : gmap string pyval;
  client_timeout : spec_float
}.

(** The part of an [httpx.Response] the code looks at: [status_code] and
    what calling [json()] does. *)
Record Response := { status_code : Z; json : res pyval }.

(** What awaiting [client.post] does: raise or hand back a response. *)
Inductive PostOutcome : Type :=
| Raised (e : exn)
| Responded (response : Response).

(** How one iteration of the [for] loop ends. *)
Inductive ctl : Type :=
| Continue (last_error : string)
| Break (last_error : string)
| ReturnValue (d : gmap string pyval)
| Propagate (e : exn).

(** How the whole [for] statement ends: it runs to its end (exhausted or
    left by [break]) with [last_error] set, or is left by [return] or by an
    exception. *)
Inductive loop_exit : Type :=
| LoopEnd (last_error : string)
| LoopReturn (d : gmap string pyval)
| LoopRaise (e : exn).

(** Line 74: [data.get("choices", [{}])[0].get("message", {}).get("content", "")]. *)
Definition extract_text (data : pyval) : res pyval :=
  choices ← py_get data "choices" (PyList [PyDict ∅]);
  first ← py_item0 choices;
  message ← py_get first "message" (PyDict ∅);
  py_get message "content" (PyStr "").

(** Lines 72-89: the statements after the [try]. *)
Definition on_response (model : string) (response : Response) : ctl :=
  if status_code response =? 200 then
    match json response ≫= extract_text with
    | Raise e => Propagate e
    | Return text =>
        if truthy text
        then ReturnValue (list_to_map [("text", text); ("model_used", PyStr model)])
        else Break "failed"
    end
  else if status_code response =? 429 then Continue "rate_limited"
  else if (500 <=? status_code response) && (status_code response <? 600)
  then Continue "upstream_error"
  else Break "failed".

(** Lines 63-89: the [try] with its two [except] clauses, tried in order,
    then the response handling. *)
Definition loop_body (model : string) (o : PostOutcome) : ctl :=
  match o with
  | Raised e =>
      if isinstance e cls_TimeoutException then Continue "timeout"
      else if isinstance e cls_RequestError then Continue "upstream_error"
      else Propagate e
  | Responded response => on_response model response
  end.

(** The state after running some code against the upstream: its value, the
    upstream's new state, and the posts made with what each one gave. *)
Record Run (W A : Type) := mkRun {
  value : A;
  world : W;
  calls : list (HttpRequest * PostOutcome)
}.
Arguments mkRun {W A} value world calls.
Arguments value {W A} r.
Arguments world {W A} r.
Arguments calls {W A} r.

Definition logged {W A} (c : HttpRequest * PostOutcome) (r : Run W A) : Run W A :=
  mkRun (value r) (world r) (c :: calls r).

Section Generate.
(** The upstream service: an arbitrary state machine answering posts. *)
Context {World : Type}.
Variable post : HttpRequest → World → PostOutcome * World.
Variable cfg : Config.

Definition headers : gmap string string :=
  list_to_map [("Authorization", "Bearer " +:+ OPENROUTER_API_KEY cfg);
               ("Content-Type", "application/json")].

(** Lines 58-62. *)
Definition payload (request : LlmRequest) (model : string) : gmap string pyval :=
  list_to_map [("model", PyStr model);
               ("messages", PyList (model_dump <$> messages request));
               ("max_tokens", PyInt (Z.min (max_tokens request) (MAX_OUTPUT_TOKENS cfg)))].

(** Line 64. *)
Definition post_request (request : LlmRequest) (model : string) : HttpRequest :=
  {| post_url := OPENROUTER_BASE_URL cfg +:+ "/chat/completions";
     post_headers := headers;
     post_json := payload request model;
     client_timeout := REQUEST_TIMEOUT_SEC cfg |}.

(** Lines 57-89: [for model in MODEL_CANDIDATES: ...]. *)
Fixpoint for_loop (request : LlmRequest) (models : list string)
    (last_error : string) (w : World) : Run World loop_exit :=
  match models with
  | [] => mkRun (LoopEnd last_error) w []
  | model :: rest =>
      let rq := post_request request model in
      let '(o, w') := post rq w in
      match loop_body model o with
      | Continue e => logged (rq, o) (for_loop request rest e w')
      | Break e => mkRun (LoopEnd e) w' [(rq, o)]
      | ReturnValue d => mkRun (LoopReturn d) w' [(rq, o)]
      | Propagate e => mkRun (LoopRaise e) w' [(rq, o)]
      end
  end.

(** Lines 46-91.  The guard on the empty list, the loop, and the final
    [return {"error_type": last_error}] reached when the loop ends or is
    left by [break].  Leaving the [async with] block only closes the
    client, which no later statement observes. *)
Definition generate (request : LlmRequest) (w : World) : Run World (res (gmap string pyval)) :=
  match MODEL_CANDIDATES cfg with
  | [] => mkRun (Return (list_to_map [("error_type", PyStr "failed")])) w []
  | _ =>
      let r := for_loop request (MODEL_CANDIDATES cfg) "failed" w in
      match value r with
      | LoopReturn d => mkRun (Return d) (world r) (calls r)
      | LoopRaise e => mkRun (Raise e) (world r) (calls r)
      | LoopEnd last_error =>
          mkRun (Return (list_to_map [("error_type", PyStr last_error)])) (world r) (calls r)
      end
  end.
End Generate.

(** ** The specification's vocabulary *)

(** The two result shapes of the endpoint. *)
Definition Success (text : pyval) (model_used : string) : gmap string pyval :=
  list_to_map [("text", text); ("model_used", PyStr model_used)].
Definition Failure (error_kind : string) : gmap string pyval :=
  list_to_map [("error_type", PyStr error_kind)].

(** The error kinds the endpoint documents. *)
Definition taxonomy : list string :=
  ["failed"; "timeout"; "upstream_error"; "rate_limited"].

(** The three classifications of the decision table. *)
Inductive classification : Type :=
| ContinueRecording (kind : string)
| StopSuccess
| StopFailure (kind : string).

(** The observed conditions of the table's rows, in its words. *)
Definition network_timeout (o : PostOutcome) : bool :=
  match o with Raised e => isinstance e cls_TimeoutException | Responded _ => false end.

Definition transport_failure (o : PostOutcome) : bool :=
  match o with Raised e => isinstance e cls_RequestError | Responded _ => false end.

Definition has_status (p : Z → bool) (o : PostOutcome) : bool :=
  match o with Raised _ => false | Responded r => p (status_code r) end.

(** The message body as the specification extracts it (section 4.2, text
    extraction): the content of the message of the first choice, where any
    step that cannot be taken (a body that is not JSON or not an object, a
    field that is missing or not of the expected shape, an empty choice
    list) gives empty content instead of an error. *)
Definition spec_body (r : Response) : pyval :=
  match json r with
  | Return (PyDict d) =>
      match d !! "choices" with
      | Some (PyList (PyDict first :: _)) =>
          match first !! "message" with
          | Some (PyDict message) => default (PyStr "") (message !! "content")
          | _ => PyStr ""
          end
      | _ => PyStr ""
      end
  | _ => PyStr ""
  end.

(** The body observed with an outcome; none comes with an exception. *)
Definition observed_body (o : PostOutcome) : pyval :=
  match o with
  | Raised _ => PyStr ""
  | Responded r => spec_body r
  end.

Definition success_nonempty (o : PostOutcome) : bool :=
  has_status (λ s, s =? 200) o && truthy (observed_body o).
Definition success_empty (o : PostOutcome) : bool :=
  has_status (λ s, s =? 200) o && negb (truthy (observed_body o)).
Definition too_many_requests : PostOutcome → bool := has_status (λ s, s =? 429).
Definition server_error : PostOutcome → bool :=
  has_status (λ s, (500 <=? s) && (s <? 600)).
Definition other_status : PostOutcome → bool :=
  has_status (λ s, negb (s =? 200)).

(** The outcome classification table of the specification, section
    4.2, one row per line, in its priority order. *)
Definition decision_table : list ((PostOutcome → bool) * classification) :=
  [ (network_timeout,   ContinueRecording "timeout");
    (transport_failure, ContinueRecording "upstream_error");
    (success_nonempty,  StopSuccess);
    (success_empty,     StopFailure "failed");
    (too_many_requests, ContinueRecording "rate_limited");
    (server_error,      ContinueRecording "upstream_error");
    (other_status,      StopFailure "failed") ].

(** First match wins. *)
Fixpoint first_match (rows : list ((PostOutcome → bool) * classification))
    (o : PostOutcome) : option classification :=
  match rows with
  | [] => None
  | (cond, c) :: rows' => if cond o then Some c else first_match rows' o
  end.

Definition classify : PostOutcome → option classification :=
  first_match decision_table.

(** What the table's classification asks of the loop at a candidate. *)
Definition enact (model : string) (o : PostOutcome) (c : classification) : ctl :=
  match c with
  | ContinueRecording kind => Continue kind
  | StopSuccess => ReturnValue (Success (observed_body o) model)
  | StopFailure kind => Break kind
  end.

(** The transient condition of the specification glossary (timeout,
    rate-limit, 5xx, transport error). *)
Definition transient (o : PostOutcome) : bool :=
  network_timeout o || too_many_requests o || server_error o || transport_failure o.

(** ** Upstream stubs *)

(** What the upstream answers when the requests are posted one after the
    other starting from state [w]. *)
Fixpoint replies {World : Type} (post : HttpRequest → World → PostOutcome * World)
    (rqs : list HttpRequest) (w : World) : list PostOutcome :=
  match rqs with
  | [] => []
  | rq :: rqs' => let '(o, w') := post rq w in o :: replies post rqs' w'
  end.

(** A scripted upstream: it plays back a fixed list of outcomes, then
    refuses connections. *)
Definition scripted (rq : HttpRequest) (w : list PostOutcome) : PostOutcome * list PostOutcome :=
  match w with
  | o :: w' => (o, w')
  | [] => (Raised RequestError, [])
  end.

(** A deterministic stub: the answer depends on the request only; the
    state counts the posts served. *)
Definition stub (answer : HttpRequest → PostOutcome) (rq : HttpRequest) (n : nat)
    : PostOutcome * nat :=
  (answer rq, S n).

Definition ok (v : pyval) : PostOutcome :=
  Responded {| status_code := 200; json := Return v |}.
Definition status_only (s : Z) : PostOutcome :=
  Responded {| status_code := s; json := Raise JSONDecodeError |}.

(** [{"choices": [{"message": {"content": c}}]}] *)
Definition completion (c : pyval) : pyval :=
  PyDict {[ "choices" := PyList [PyDict {[ "message" := PyDict {[ "content" := c ]} ]}] ]}.

Definition by_model (rq : HttpRequest) : PostOutcome :=
  match post_json rq !! "model" with
  | Some (PyStr "primary") => status_only 503
  | Some (PyStr "backup") => ok (completion (PyStr "hello"))
  | _ => status_only 404
  end.

Definition sample_cfg (candidates : list string) (ceiling : Z) : Config :=
  {| OPENROUTER_API_KEY := "sk-test";
     OPENROUTER_BASE_URL := "https://openrouter.ai/api/v1";
     MODEL_CANDIDATES := candidates;
     REQUEST_TIMEOUT_SEC := S754_finite false 15 1;
     MAX_OUTPUT_TOKENS := ceiling |}.

Definition sample_request (n : Z) : LlmRequest :=
  {| messages := [ {| role := "user"; content := "hi" |} ]; max_tokens := n |}.

(** The posts a run makes if it tries every candidate. *)
Definition posts (cfg : Config) (request : LlmRequest) : list HttpRequest :=
  post_request cfg request <$> MODEL_CANDIDATES cfg.

(** How the [for] statement ends when an iteration ends with [c] and no
    iteration follows. *)
Definition exit_of (c : ctl) : loop_exit :=
  match c with
  | Continue e | Break e => LoopEnd e
  | ReturnValue d => LoopReturn d
  | Propagate e => LoopRaise e
  end.

(** The return statement of line 91 and the two other ways out. *)
Definition finish (x : loop_exit) : res (gmap string pyval) :=
  match x with
  | LoopEnd last_error => Return (Failure last_error)
  | LoopReturn d => Return d
  | LoopRaise e => Raise e
  end.

(** Configurations, requests and scripted upstreams used as concrete
    inputs below. *)
Definition demo_cfg : Config := sample_cfg ["primary"; "backup"; "spare"] 600.
Definition demo_request : LlmRequest := sample_request 1000.
Definition nonpositive_request : LlmRequest := sample_request (-5).

Definition empty_choices : pyval := PyDict {[ "choices" := PyList [] ]}.

Definition second_succeeds : list PostOutcome :=
  [status_only 503; ok (completion (PyStr "hello"))].
Definition all_transient : list PostOutcome :=
  [Raised TimeoutException; status_only 500; status_only 429].
Definition second_rejected : list PostOutcome :=
  [Raised RequestError; status_only 400; ok (completion (PyStr "hello"))].
Definition first_malformed : list PostOutcome :=
  [ok empty_choices; ok (completion (PyStr "hello"))].
Definition rate_limited_then_unauthorized : list PostOutcome :=
  [status_only 429; status_only 401].

(** ** Startup: reading the environment (lines 31-42) *)

(** A [str] is a [string] with one character per code point, so the
    strings here range over the code points below 256.  [py_isspace] is
    [str.isspace] on those: tab to carriage return, the four separators
    28-31, space, NEL (133) and the no-break space (160). *)
Definition py_isspace (c : Ascii.ascii) : bool :=
  let n := Ascii.N_of_ascii c in
  ((9 <=? n) && (n <=? 13) || (28 <=? n) && (n <=? 32) || (n =? 133) || (n =? 160))%N.

Fixpoint py_lstrip (s : string) : string :=
  match s with
  | EmptyString => EmptyString
  | String c s' => if py_isspace c then py_lstrip s' else s
  end.

Fixpoint py_rstrip (s : string) : string :=
  match s with
  | EmptyString => EmptyString
  | String c s' =>
      match py_rstrip s' with
      | EmptyString => if py_isspace c then EmptyString else String c EmptyString
      | r => String c r
      end
  end.

(** [s.strip()]. *)
Definition py_strip (s : string) : string := py_rstrip (py_lstrip s).

(** [s.split(",")]: the pieces between commas; never an empty list. *)
Fixpoint py_split_comma (s : string) : list string :=
  match s with
  | EmptyString => [EmptyString]
  | String c s' =>
      if Ascii.eqb c ","%char
      then EmptyString :: py_split_comma s'
      else match py_split_comma s' with
           | piece :: pieces => String c piece :: pieces
           | [] => [String c EmptyString]
           end
  end.

(** [",".join(names)], the inverse direction, used to state round trips. *)
Fixpoint py_join_comma (names : list string) : string :=
  match names with
  | [] => EmptyString
  | [name] => name
  | name :: rest => name +:+ String ","%char (py_join_comma rest)
  end.

(** Every character of [s] satisfies [p]. *)
Fixpoint all_chars (p : Ascii.ascii → bool) (s : string) : bool :=
  match s with
  | EmptyString => true
  | String c s' => p c && all_chars p s'
  end.

(** A string that does not begin with whitespace. *)
Definition no_leading_space (s : string) : bool :=
  match s with
  | EmptyString => true
  | String c _ => negb (py_isspace c)
  end.

Definition blank (s : string) : bool := all_chars py_isspace s.
Definition comma_free (s : string) : bool :=
  all_chars (λ c, negb (Ascii.eqb c ","%char)) s.

(** What the import of the module can raise: [RuntimeError] from
    [get_env], [ValueError] from [float] and [int]. *)
Inductive startup_exn : Type :=
| RuntimeError (message : string)
| ValueError.

#[global] Instance startup_bind : MBind (sum startup_exn) := λ A B k c,
  match c with
  | inr a => k a
  | inl e => inl e
  end.

(** Lines 31-35; [environ] is [os.environ] and [dflt] the optional
    default, so [os.getenv(name, default)] is the lookup falling back to
    [dflt]. *)
Definition get_env (environ : gmap string string) (name : string)
    (dflt : option string) : startup_exn + string :=
  match (match environ !! name with Some v => Some v | None => dflt end) with
  | None => inl (RuntimeError ("Missing env: " +:+ name))
  | Some value =>
      if String.eqb (py_strip value) ""
      then inl (RuntimeError ("Missing env: " +:+ name))
      else inr value
  end.

(** The list comprehension of line 40 over the pieces of the split:
    [[item.strip() for item in items if item.strip()]]. *)
Fixpoint stripped_items (items : list string) : list string :=
  match items with
  | [] => []
  | item :: rest =>
      if String.eqb (py_strip item) ""
      then stripped_items rest
      else py_strip item :: stripped_items rest
  end.

(** Line 40, applied to the value [get_env] returned. *)
Definition parse_candidates (value : string) : list string :=
  stripped_items (py_split_comma value).

Section Startup.
(** The builtins [float] and [int] on strings; [None] is [ValueError]. *)
Variable py_float : string → option spec_float.
Variable py_int : string → option Z.

Definition convert {A} (parse : string → option A) (value : string) : startup_exn + A :=
  match parse value with
  | Some a => inr a
  | None => inl ValueError
  end.

(** Lines 38-42, in the order the module evaluates them. *)
Definition load_config (environ : gmap string string) : startup_exn + Config :=
  key ← get_env environ "OPENROUTER_API_KEY" None;
  base_url ← get_env environ "OPENROUTER_BASE_URL" (Some "https://openrouter.ai/api/v1");
  candidates ← get_env environ "MODEL_CANDIDATES" None;
  timeout_text ← get_env environ "REQUEST_TIMEOUT_SEC" (Some "30");
  timeout ← convert py_float timeout_text;
  ceiling_text ← get_env environ "MAX_OUTPUT_TOKENS" (Some "600");
  ceiling ← convert py_int ceiling_text;
  inr {| OPENROUTER_API_KEY := key;
         OPENROUTER_BASE_URL := base_url;
         MODEL_CANDIDATES := parse_candidates candidates;
         REQUEST_TIMEOUT_SEC := timeout;
         MAX_OUTPUT_TOKENS := ceiling |}.
End Startup.

(** The five variables the module reads, with their defaults. *)
Definition settings : list (string * option string) :=
  [ ("OPENROUTER_API_KEY", None);
    ("OPENROUTER_BASE_URL", Some "https://openrouter.ai/api/v1");
    ("MODEL_CANDIDATES", None);
    ("REQUEST_TIMEOUT_SEC", Some "30");
    ("MAX_OUTPUT_TOKENS", Some "600") ].

(** Sample environment and conversions for concrete runs. *)
Definition demo_environ : gmap string string :=
  list_to_map [ ("OPENROUTER_API_KEY", " sk-test");
                ("MODEL_CANDIDATES", " primary , ,backup,") ].
Definition blank_url_environ : gmap string string :=
  <["OPENROUTER_BASE_URL" := "  "]> demo_environ.
Definition demo_float (s : string) : option spec_float :=
  if String.eqb s "30" then Some (S754_finite false 15 1) else None.
Definition demo_int (s : string) : option Z :=
  if String.eqb s "600" then Some 600 else None.

Definition second_malformed : list PostOutcome :=
  [status_only 503; ok empty_choices; ok (completion (PyStr "hello"))].
Definition malformed_after_rate_limit : list PostOutcome :=
  [status_only 429; ok empty_choices].

Definition demo_loaded : Config :=
  {| OPENROUTER_API_KEY := " sk-test";
     OPENROUTER_BASE_URL := "https://openrouter.ai/api/v1";
     MODEL_CANDIDATES := ["primary"; "backup"];
     REQUEST_TIMEOUT_SEC := S754_finite false 15 1;
     MAX_OUTPUT_TOKENS := 600 |}.
Definition only_separators : string := " , ,".
Definition repeated_names : list string := ["primary"; "backup"; "primary"].
Definition large_request : LlmRequest := sample_request 2000.
Definition unavailable_with_body : Response :=
  {| status_code := 503; json := Return (completion (PyStr "hello")) |}.

Ltac in_list :=
  repeat first [apply list_elem_of_here | apply list_elem_of_further]; fail.

(** ** One attempt: the loop body against the table *)

Lemma Success_text text model : Success text model !! "text" = Some text.
Proof. reflexivity. Qed.


Lemma Failure_text kind : Failure kind !! "text" = None.
Proof. reflexivity. Qed.

Lemma Failure_error_type kind : Failure kind !! "error_type" = Some (PyStr kind).
Proof. reflexivity. Qed.

Lemma Success_not_Failure text model kind : Success text model ≠ Failure kind.
Proof.
  intros H. apply (f_equal (λ d : gmap string pyval, d !! "text")) in H.
  rewrite Success_text, Failure_text in H. discriminate.
Qed.

Lemma Return_Failure_not_Success kind text model :
  Return (Failure kind) ≠ Return (Success text model).
Proof.
  intros H.
  apply (f_equal (λ r : res (gmap string pyval),
                    match r with Return d => d !! "text" | Raise _ => None end)) in H.
  cbv beta iota in H. rewrite Failure_text, Success_text in H. discriminate.
Qed.

(** Inversion of the loop body: what each way of ending an iteration
    says about the outcome that caused it. *)
Lemma loop_body_ReturnValue model o d :
  loop_body model o = ReturnValue d →
  ∃ response text,
    o = Responded response ∧ status_code response = 200 ∧
    json response ≫= extract_text = Return text ∧
    truthy text = true ∧ d = Success text model.
Proof.
  destruct o as [e|r]; simpl.
  - destruct e; simpl; discriminate.
  - unfold on_response.
    destruct (status_code r =? 200) eqn:E200.
    + destruct (json r ≫= extract_text) as [text|e] eqn:Ex; [|discriminate].
      destruct (truthy text) eqn:Et; [|discriminate].
      intros [= <-]. exists r, text. apply Z.eqb_eq in E200. done.
    + destruct (status_code r =? 429); [discriminate|].
      destruct ((500 <=? status_code r) && (status_code r <? 600)); discriminate.
Qed.

(** The specification's extraction and the code's agree wherever the
    code's returns, and where the code's raises the specification sees an
    empty body. *)
Lemma spec_body_extracted r text :
  json r ≫= extract_text = Return text → spec_body r = text.
Proof.
  unfold spec_body. destruct (json r) as [data|e]; [|done].
  change (Return data ≫= extract_text) with (extract_text data).
  destruct data as [| | | | | |d]; try done.
  unfold extract_text. simpl.
  destruct (d !! "choices") as [choices|]; simpl; [|by intros [= <-]].
  destruct choices as [| | | |s|l|]; try done; [by destruct s|].
  destruct l as [|first rest]; [done|]. simpl.
  destruct first as [| | | | | |first]; try done. simpl.
  destruct (first !! "message") as [message|]; simpl; [|by intros [= <-]].
  destruct message as [| | | | | |message]; try done. by intros [= <-].
Qed.

Lemma spec_body_raised r e :
  json r ≫= extract_text = Raise e → spec_body r = PyStr "".
Proof.
  unfold spec_body. destruct (json r) as [data|e0]; [|done].
  change (Return data ≫= extract_text) with (extract_text data).
  destruct data as [| | | | | |d]; try done.
  unfold extract_text. simpl.
  destruct (d !! "choices") as [choices|]; simpl; [|done].
  destruct choices as [| | | |s|l|]; try done.
  destruct l as [|first rest]; [done|]. simpl.
  destruct first as [| | | | | |first]; try done. simpl.
  destruct (first !! "message") as [message|]; simpl; [|done].
  destruct message as [| | | | | |message]; done.
Qed.

(** The table read off for a response. *)
Lemma classify_responded r :
  classify (Responded r) =
    if status_code r =? 200
    then if truthy (spec_body r) then Some StopSuccess else Some (StopFailure "failed")
    else if status_code r =? 429 then Some (ContinueRecording "rate_limited")
    else if (500 <=? status_code r) && (status_code r <? 600)
    then Some (ContinueRecording "upstream_error")
    else Some (StopFailure "failed").
Proof.
  unfold classify, decision_table, first_match, network_timeout, transport_failure,
    success_nonempty, success_empty, too_many_requests, server_error, other_status,
    has_status, observed_body.
  destruct (status_code r =? 200); destruct (truthy (spec_body r));
    destruct (status_code r =? 429);
    destruct ((500 <=? status_code r) && (status_code r <? 600)); reflexivity.
Qed.

Lemma loop_body_Continue model o kind :
  loop_body model o = Continue kind →
  transient o = true ∧ classify o = Some (ContinueRecording kind) ∧ kind ∈ taxonomy.
Proof.
  destruct o as [e|r].
  - simpl. destruct e; simpl; intros [= <-] || discriminate;
      (split; [reflexivity|split; [reflexivity|unfold taxonomy; in_list]]).
  - rewrite classify_responded. simpl.
    unfold on_response, transient, too_many_requests, server_error. simpl.
    destruct (status_code r =? 200) eqn:E200.
    + destruct (json r ≫= extract_text) as [text|e]; [|discriminate].
      destruct (truthy text); discriminate.
    + destruct (status_code r =? 429) eqn:E429.
      * intros [= <-]. repeat split. unfold taxonomy; in_list.
      * destruct ((500 <=? status_code r) && (status_code r <? 600)) eqn:E5;
          [|discriminate].
        intros [= <-]. repeat split. unfold taxonomy; in_list.
Qed.

Lemma loop_body_Break model o kind :
  loop_body model o = Break kind →
  kind = "failed" ∧ classify o = Some (StopFailure kind).
Proof.
  destruct o as [e|r].
  - simpl. destruct e; simpl; discriminate.
  - rewrite classify_responded. simpl. unfold on_response.
    destruct (status_code r =? 200) eqn:E200.
    + destruct (json r ≫= extract_text) as [text|e] eqn:Ex; [|discriminate].
      destruct (truthy text) eqn:Et; [discriminate|]. intros [= <-].
      by rewrite (spec_body_extracted r text Ex), Et.
    + destruct (status_code r =? 429); [discriminate|].
      destruct ((500 <=? status_code r) && (status_code r <? 600)); [discriminate|].
      by intros [= <-].
Qed.

(** An iteration is left by an exception either on an exception of the
    post that no row of the table covers, or on an HTTP 200 whose body
    the code cannot unpack, which the table classifies StopFailure. *)
Lemma loop_body_Propagate model o e :
  loop_body model o = Propagate e →
  (o = Raised e ∧ classify o = None) ∨
  (∃ r, o = Responded r ∧ status_code r = 200 ∧
        json r ≫= extract_text = Raise e ∧
        classify o = Some (StopFailure "failed")).
Proof.
  destruct o as [e'|r].
  - left. destruct e'; simpl in *; simplify_eq; done.
  - right. exists r. split; [done|]. rewrite classify_responded.
    revert H. simpl. unfold on_response.
    destruct (status_code r =? 200) eqn:E200.
    + apply Z.eqb_eq in E200.
      destruct (json r ≫= extract_text) as [text|e0] eqn:Ex;
        [by destruct (truthy text)|].
      intros [= <-]. by rewrite (spec_body_raised r e0 Ex).
    + destruct (status_code r =? 429); [done|].
      by destruct ((500 <=? status_code r) && (status_code r <? 600)).
Qed.

(** The loop body against the table: whatever row matches first, the
    iteration ends the way that row's classification asks, except on an
    HTTP 200 whose body the code cannot unpack, where the table asks to
    stop with [failed] and the code raises. *)
Lemma loop_body_follows_table model o c :
  classify o = Some c →
  loop_body model o = enact model o c ∨
  ∃ r e, o = Responded r ∧ status_code r = 200 ∧
         json r ≫= extract_text = Raise e ∧
         c = StopFailure "failed" ∧ loop_body model o = Propagate e.
Proof.
  intros Hc. destruct (loop_body model o) as [k|k|d|e] eqn:Hb.
  - left. apply loop_body_Continue in Hb as (_ & Hk & _). by simplify_eq.
  - left. apply loop_body_Break in Hb as (_ & Hk). by simplify_eq.
  - left. apply loop_body_ReturnValue in Hb as (r & text & -> & E200 & Ex & Et & ->).
    rewrite classify_responded, E200, (spec_body_extracted r text Ex), Et in Hc.
    change (200 =? 200) with true in Hc. cbv iota in Hc. injection Hc as <-.
    simpl. by rewrite (spec_body_extracted r text Ex).
  - apply loop_body_Propagate in Hb as [[-> Hn]|(r & -> & E200 & Ex & Hs)].
    + congruence.
    + right. exists r, e. repeat split; try done. congruence.
Qed.

Lemma loop_body_success model response text :
  status_code response = 200 →
  json response ≫= extract_text = Return text →
  truthy text = true →
  loop_body model (Responded response) = ReturnValue (Success text model).
Proof.
  intros H200 Hex Ht. unfold loop_body, on_response.
  rewrite H200. change (200 =? 200) with true. cbv iota.
  by rewrite Hex, Ht.
Qed.

Lemma transient_loop_body model o :
  transient o = true →
  ∃ kind, loop_body model o = Continue kind ∧
          classify o = Some (ContinueRecording kind) ∧ kind ∈ taxonomy.
Proof.
  intros Ht. destruct (loop_body model o) as [k|k|d|e] eqn:Hb.
  - exists k. split; [done|]. by apply loop_body_Continue in Hb as (_ & ? & ?).
  - exfalso. destruct o as [e|r]; simpl in Hb.
    { destruct e; simpl in Hb; discriminate. }
    revert Hb Ht. unfold on_response, transient, too_many_requests, server_error.
    simpl. destruct (status_code r =? 200) eqn:E200.
    + apply Z.eqb_eq in E200. rewrite E200. discriminate.
    + destruct (status_code r =? 429); [discriminate|].
      destruct ((500 <=? status_code r) && (status_code r <? 600)); discriminate.
  - exfalso. apply loop_body_ReturnValue in Hb as (r & text & -> & E200 & _).
    revert Ht. unfold transient, too_many_requests, server_error. simpl.
    rewrite E200. discriminate.
  - exfalso. destruct o as [e'|r]; simpl in Hb.
    { destruct e'; simpl in Hb; discriminate. }
    revert Hb Ht. unfold on_response, transient, too_many_requests, server_error.
    simpl. destruct (status_code r =? 200) eqn:E200.
    + apply Z.eqb_eq in E200. rewrite E200. discriminate.
    + destruct (status_code r =? 429); [discriminate|].
      destruct ((500 <=? status_code r) && (status_code r <? 600)); discriminate.
Qed.

(** ** The loop *)

Section Loop.
Context {World : Type}.
Variable post : HttpRequest → World → PostOutcome * World.
Variable cfg : Config.
Variable request : LlmRequest.

Lemma for_loop_step model rest e w o w' :
  post (post_request cfg request model) w = (o, w') →
  for_loop post cfg request (model :: rest) e w =
    match loop_body model o with
    | Continue e' => logged (post_request cfg request model, o) (for_loop post cfg request rest e' w')
    | c => mkRun (exit_of c) w' [(post_request cfg request model, o)]
    end.
Proof. intros H. simpl. rewrite H. by destruct (loop_body model o). Qed.

Lemma replies_step rq rqs w o w' :
  post rq w = (o, w') → replies post (rq :: rqs) w = o :: replies post rqs w'.
Proof. intros H. simpl. by rewrite H. Qed.

Lemma generate_unfold w :
  generate post cfg request w =
    match MODEL_CANDIDATES cfg with
    | [] => mkRun (Return (Failure "failed")) w []
    | models =>
        let r := for_loop post cfg request models "failed" w in
        mkRun (finish (value r)) (world r) (calls r)
    end.
Proof.
  unfold generate. destruct (MODEL_CANDIDATES cfg) as [|m ms]; [done|].
  cbv zeta. by destruct (value _).
Qed.

(** Every post of the loop is the request built for one of the
    candidates, in list order, and the loop never posts more than once
    per candidate. *)
Lemma for_loop_calls models : ∀ e w,
  ∃ n, (n ≤ length models)%nat ∧
    calls (for_loop post cfg request models e w) =
      zip (post_request cfg request <$> take n models) (take n (replies post (post_request cfg request <$> models) w)).
Proof.
  induction models as [|m ms IH]; intros e w.
  - exists 0%nat. done.
  - destruct (post (post_request cfg request m) w) as [o w'] eqn:Hp.
    rewrite (for_loop_step _ _ _ _ _ _ Hp), fmap_cons, (replies_step _ _ _ _ _ Hp).
    destruct (loop_body m o) as [k|k|d|ex].
    + destruct (IH k w') as (n & Hn & Hc). exists (S n). split; [simpl; lia|].
      simpl. by rewrite Hc.
    + exists 1%nat. split; [simpl; lia|done].
    + exists 1%nat. split; [simpl; lia|done].
    + exists 1%nat. split; [simpl; lia|done].
Qed.

(** Transient outcomes up to candidate [k] (counted from 0), then an
    outcome that is not transient: the loop stops there, having posted
    once for each candidate up to [k] and for no later one. *)
Lemma for_loop_stops models : ∀ k e w model o,
  models !! k = Some model →
  Forall (λ o, transient o = true) (take k (replies post (post_request cfg request <$> models) w)) →
  replies post (post_request cfg request <$> models) w !! k = Some o →
  transient o = false →
  value (for_loop post cfg request models e w) = exit_of (loop_body model o) ∧
  calls (for_loop post cfg request models e w) =
    zip (post_request cfg request <$> take (S k) models)
        (take (S k) (replies post (post_request cfg request <$> models) w)).
Proof.
  induction models as [|m ms IH]; intros k e w model o Hm Hpre Hk Hnt; [done|].
  destruct (post (post_request cfg request m) w) as [o0 w'] eqn:Hp.
  rewrite (for_loop_step _ _ _ _ _ _ Hp).
  rewrite fmap_cons, (replies_step _ _ _ _ _ Hp) in Hpre, Hk |- *.
  destruct k as [|k]; simpl in Hm, Hpre, Hk.
  - simplify_eq. destruct (loop_body model o) as [kind| | |] eqn:Hb; try done.
    apply loop_body_Continue in Hb as (Ht & _). congruence.
  - apply Forall_cons in Hpre as [Ht Hpre].
    destruct (transient_loop_body m _ Ht) as (kind & -> & _).
    destruct (IH k kind w' model o Hm Hpre Hk Hnt) as [Hv Hc].
    split; [done|]. simpl. by rewrite Hc.
Qed.

(** Only transient outcomes: the loop runs to exhaustion, posts once
    per candidate, and ends with the kind recorded for the last one. *)
Lemma for_loop_exhausted models : ∀ e w,
  Forall (λ o, transient o = true) (replies post (post_request cfg request <$> models) w) →
  calls (for_loop post cfg request models e w) =
    zip (post_request cfg request <$> models) (replies post (post_request cfg request <$> models) w) ∧
  match last (replies post (post_request cfg request <$> models) w) with
  | None => value (for_loop post cfg request models e w) = LoopEnd e
  | Some o => ∃ kind, classify o = Some (ContinueRecording kind) ∧
                      value (for_loop post cfg request models e w) = LoopEnd kind
  end.
Proof.
  induction models as [|m ms IH]; intros e w Hall; [done|].
  destruct (post (post_request cfg request m) w) as [o w'] eqn:Hp.
  rewrite (for_loop_step _ _ _ _ _ _ Hp).
  rewrite fmap_cons, (replies_step _ _ _ _ _ Hp) in Hall |- *.
  apply Forall_cons in Hall as [Ht Hall].
  destruct (transient_loop_body m _ Ht) as (kind & -> & Hc & _).
  destruct (IH kind w' Hall) as [Hcalls Hlast].
  split; [simpl; by rewrite Hcalls|].
  destruct (replies post (post_request cfg request <$> ms) w') as [|o' outs] eqn:Hr.
  - simpl in *. eauto.
  - change (last (o :: o' :: outs)) with (last (o' :: outs)).
    destruct (last (o' :: outs)) eqn:Hl; [exact Hlast|].
    by apply last_None in Hl.
Qed.

(** The ways the loop can end, read back from its value. *)
Lemma for_loop_exit models : ∀ e w,
  e ∈ taxonomy →
  match value (for_loop post cfg request models e w) with
  | LoopEnd kind => kind ∈ taxonomy
  | LoopReturn d =>
      ∃ model response text,
        model ∈ models ∧
        last (calls (for_loop post cfg request models e w)) = Some (post_request cfg request model, Responded response) ∧
        status_code response = 200 ∧
        json response ≫= extract_text = Return text ∧
        truthy text = true ∧ d = Success text model
  | LoopRaise ex =>
      ∃ c model, last (calls (for_loop post cfg request models e w)) = Some c ∧
                 loop_body model c.2 = Propagate ex
  end.
Proof.
  induction models as [|m ms IH]; intros e w He; [done|].
  destruct (post (post_request cfg request m) w) as [o w'] eqn:Hp.
  rewrite (for_loop_step _ _ _ _ _ _ Hp).
  destruct (loop_body m o) as [k|k|d|ex] eqn:Hb.
  - apply loop_body_Continue in Hb as (_ & _ & Hk).
    specialize (IH k w' Hk). simpl.
    destruct (value (for_loop post cfg request ms k w')) as [kind|d|ex]; [done| |].
    + destruct IH as (model & r & text & Hin & Hl & IH).
      exists model, r, text. split; [by apply list_elem_of_further|]. split; [|done].
      destruct (calls (for_loop post cfg request ms k w')); [done|]. done.
    + destruct IH as (c & model & Hl & IH). exists c, model. split; [|done].
      destruct (calls (for_loop post cfg request ms k w')); [done|]. done.
  - apply loop_body_Break in Hb as [-> _]. simpl. unfold taxonomy. in_list.
  - apply loop_body_ReturnValue in Hb as (r & text & -> & ? & ? & ? & ->).
    simpl. exists m, r, text. split; [apply list_elem_of_here|done].
  - simpl. by exists (post_request cfg request m, o), m.
Qed.
End Loop.

(** ** The endpoint *)

Section Endpoint.
Context {World : Type}.
Variable post : HttpRequest → World → PostOutcome * World.
Variable cfg : Config.


Lemma length_replies rqs : ∀ w, length (replies post rqs w) = length rqs.
Proof.
  induction rqs as [|rq rqs IH]; intros w; [done|].
  simpl. destruct (post rq w) as [o w']. simpl. by rewrite IH.
Qed.

Lemma nonempty_text_truthy s : s ≠ "" → truthy (PyStr s) = true.
Proof. by destruct s. Qed.


(** C1: when candidate [k+1] (the list is indexed from 0 here) answers
    HTTP 200 with a non-empty extracted text and every earlier candidate
    met a transient condition, [generate] returns Success with that text
    and that candidate as [model_used]; the posts made are exactly those
    for the candidates up to it, in order, so none after it is called. *)
Theorem generate_first_success request w k model response s :
  MODEL_CANDIDATES cfg !! k = Some model →
  Forall (λ o, transient o = true) (take k (replies post (posts cfg request) w)) →
  replies post (posts cfg request) w !! k = Some (Responded response) →
  status_code response = 200 →
  json response ≫= extract_text = Return (PyStr s) →
  s ≠ "" →
  value (generate post cfg request w) = Return (Success (PyStr s) model) ∧
  calls (generate post cfg request w) =
    zip (post_request cfg request <$> take (S k) (MODEL_CANDIDATES cfg))
        (take (S k) (replies post (posts cfg request) w)).
Proof.
  unfold posts. intros Hm Hpre Hk H200 Hex Hs. rewrite generate_unfold.
  destruct (MODEL_CANDIDATES cfg) as [|m ms] eqn:Hcs; [done|]. cbv zeta.
  assert (Hnt : transient (Responded response) = false).
  { unfold transient, too_many_requests, server_error. simpl. by rewrite H200. }
  destruct (for_loop_stops post cfg request (m :: ms) k "failed" w model _
              Hm Hpre Hk Hnt) as [Hv Hc].
  cbn [value calls]. rewrite Hv, Hc. split; [|done].
  by rewrite (loop_body_success model response _ H200 Hex (nonempty_text_truthy s Hs)).
Qed.

(** C2: on a non-empty candidate list whose candidates all meet a
    transient condition, [generate] returns Failure with the kind the
    table records for the last candidate, after exactly one post per
    candidate, in list order. *)
Theorem generate_all_transient request w :
  MODEL_CANDIDATES cfg ≠ [] →
  Forall (λ o, transient o = true) (replies post (posts cfg request) w) →
  ∃ o kind,
    last (replies post (posts cfg request) w) = Some o ∧
    classify o = Some (ContinueRecording kind) ∧
    value (generate post cfg request w) = Return (Failure kind) ∧
    calls (generate post cfg request w) = zip (posts cfg request) (replies post (posts cfg request) w) ∧
    length (calls (generate post cfg request w)) = length (MODEL_CANDIDATES cfg).
Proof.
  unfold posts. intros Hne Hall. rewrite generate_unfold.
  pose proof (length_replies (post_request cfg request <$> MODEL_CANDIDATES cfg) w) as Hlen.
  destruct (MODEL_CANDIDATES cfg) as [|m ms] eqn:Hcs; [done|]. cbv zeta.
  destruct (for_loop_exhausted post cfg request (m :: ms) "failed" w Hall)
    as [Hc Hl].
  destruct (last (replies post (post_request cfg request <$> m :: ms) w))
    as [o|] eqn:Hlast.
  - destruct Hl as (kind & Hk & Hv). exists o, kind. cbn [value calls].
    rewrite Hv, Hc. repeat split; [done|].
    rewrite length_zip, Hlen, length_fmap. lia.
  - apply last_None in Hlast. rewrite Hlast in Hlen. done.
Qed.

(** Transient outcomes up to a candidate whose outcome stops the loop
    with an error (HTTP 200 with an empty extracted body, or a status
    other than 200, 429 and 5xx): [generate] returns Failure(failed) and
    has posted once for that candidate and for none after it. *)
Lemma generate_stops_on_terminal request w k model o kind :
  MODEL_CANDIDATES cfg !! k = Some model →
  Forall (λ o, transient o = true) (take k (replies post (posts cfg request) w)) →
  replies post (posts cfg request) w !! k = Some o →
  loop_body model o = Break kind →
  value (generate post cfg request w) = Return (Failure "failed") ∧
  calls (generate post cfg request w) =
    zip (post_request cfg request <$> take (S k) (MODEL_CANDIDATES cfg))
        (take (S k) (replies post (posts cfg request) w)) ∧
  length (calls (generate post cfg request w)) = S k.
Proof.
  unfold posts. intros Hm Hpre Hk Hb. rewrite generate_unfold.
  pose proof (length_replies (post_request cfg request <$> MODEL_CANDIDATES cfg) w) as Hlen.
  pose proof (lookup_lt_Some _ _ _ Hm) as Hlt.
  destruct (MODEL_CANDIDATES cfg) as [|m ms] eqn:Hcs; [done|]. cbv zeta.
  assert (Hnt : transient o = false).
  { destruct (transient o) eqn:Ht; [|done].
    destruct (transient_loop_body model o Ht) as (? & ? & _). congruence. }
  destruct (for_loop_stops post cfg request (m :: ms) k "failed" w model o
              Hm Hpre Hk Hnt) as [Hv Hcalls].
  cbn [value calls]. rewrite Hv, Hcalls, Hb.
  apply loop_body_Break in Hb as [-> _].
  repeat split.
  rewrite length_zip, length_fmap, !length_take, Hlen, length_fmap. lia.
Qed.

(** C4, as the code has it: on the empty candidate list [generate]
    returns Failure with the kind [failed] (there is no dedicated kind
    for an empty list) and posts nothing; the upstream is left as it
    was. *)
Theorem generate_no_candidates request w :
  MODEL_CANDIDATES cfg = [] →
  generate post cfg request w = mkRun (Return (Failure "failed")) w [].
Proof. intros H. unfold generate. by rewrite H. Qed.


Lemma payload_max_tokens_lookup request model :
  post_json (post_request cfg request model) !! "max_tokens" =
    Some (PyInt (Z.min (max_tokens request) (MAX_OUTPUT_TOKENS cfg))).
Proof. reflexivity. Qed.

Lemma for_loop_posts request models : ∀ e w,
  Forall (λ c, ∃ model, model ∈ models ∧ c.1 = post_request cfg request model)
         (calls (for_loop post cfg request models e w)).
Proof.
  induction models as [|m ms IH]; intros e w; [by constructor|].
  destruct (post (post_request cfg request m) w) as [o w'] eqn:Hp.
  rewrite (for_loop_step _ _ _ _ _ _ _ _ _ Hp).
  assert (Hm : ∃ model, model ∈ m :: ms ∧
                 (post_request cfg request m, o).1 = post_request cfg request model).
  { exists m. split; [apply list_elem_of_here|done]. }
  destruct (loop_body m o) as [k|k|d|ex]; cbn [calls logged];
    repeat (constructor; [exact Hm|]); try constructor.
  eapply Forall_impl; [apply IH|].
  intros c (model & Hin & Hc). exists model. split; [|done].
  by apply list_elem_of_further.
Qed.

Lemma generate_posts request w :
  Forall (λ c, ∃ model, model ∈ MODEL_CANDIDATES cfg ∧
                        c.1 = post_request cfg request model)
         (calls (generate post cfg request w)).
Proof.
  rewrite generate_unfold.
  destruct (MODEL_CANDIDATES cfg) as [|m ms] eqn:Hcs; [by constructor|].
  apply for_loop_posts.
Qed.

(** C7: the payload built for any candidate, and so the payload of every
    post [generate] makes, carries as [max_tokens] the smaller of the
    requested count and the configured ceiling. *)
Theorem payload_max_tokens request w :
  (∀ model, payload cfg request model !! "max_tokens" =
              Some (PyInt (Z.min (max_tokens request) (MAX_OUTPUT_TOKENS cfg)))) ∧
  Forall (λ c, post_json c.1 !! "max_tokens" =
                 Some (PyInt (Z.min (max_tokens request) (MAX_OUTPUT_TOKENS cfg))))
         (calls (generate post cfg request w)).
Proof.
  split; [done|].
  eapply Forall_impl; [apply generate_posts|].
  intros c (model & _ & ->). apply payload_max_tokens_lookup.
Qed.

(** Whenever [generate] returns, the result has exactly one of the two
    shapes: Success (text and model_used), or Failure whose kind is one of
    [failed], [timeout], [upstream_error], [rate_limited]. *)
Lemma generate_returned_shape request w d :
  value (generate post cfg request w) = Return d →
  ((∃ text model, d = Success text model) ∧ ¬ (∃ kind, d = Failure kind)) ∨
  ((∃ kind, d = Failure kind ∧ kind ∈ taxonomy) ∧
   ¬ (∃ text model, d = Success text model)).
Proof.
  rewrite generate_unfold.
  assert (He : "failed" ∈ taxonomy) by (unfold taxonomy; in_list).
  assert (Hfail : ∀ kind, kind ∈ taxonomy →
            ((∃ text model, Failure kind = Success text model) ∧
               ¬ (∃ kind', Failure kind = Failure kind')) ∨
            ((∃ kind', Failure kind = Failure kind' ∧ kind' ∈ taxonomy) ∧
               ¬ (∃ text model, Failure kind = Success text model))).
  { intros kind Hk. right. split; [by exists kind|].
    intros (text & model & H). symmetry in H. by apply Success_not_Failure in H. }
  destruct (MODEL_CANDIDATES cfg) as [|m ms] eqn:Hcs.
  { intros H. cbn [value] in H.
    assert (d = Failure "failed") as -> by congruence. by apply Hfail. }
  cbv zeta. cbn [value calls].
  pose proof (for_loop_exit post cfg request (m :: ms) "failed" w He) as Hx.
  destruct (value (for_loop post cfg request (m :: ms) "failed" w)) as [kind|d'|ex].
  - intros H. assert (d = Failure kind) as -> by (cbn [finish] in H; congruence).
    by apply Hfail.
  - destruct Hx as (model & r & text & _ & _ & _ & _ & _ & ->).
    intros H. assert (d = Success text model) as -> by (cbn [finish] in H; congruence).
    left. split; [by eauto|].
    intros [kind H']. by apply Success_not_Failure in H'.
  - discriminate.
Qed.

Lemma for_loop_deterministic answer request models :
  (∀ rq w, (post rq w).1 = answer rq) →
  ∀ e w1 w2,
    value (for_loop post cfg request models e w1) =
      value (for_loop post cfg request models e w2) ∧
    calls (for_loop post cfg request models e w1) =
      calls (for_loop post cfg request models e w2).
Proof.
  intros Hdet. induction models as [|m ms IH]; intros e w1 w2; [done|].
  pose proof (Hdet (post_request cfg request m) w1) as H1.
  pose proof (Hdet (post_request cfg request m) w2) as H2.
  destruct (post (post_request cfg request m) w1) as [o1 w1'] eqn:Hp1.
  destruct (post (post_request cfg request m) w2) as [o2 w2'] eqn:Hp2.
  simpl in H1, H2. subst o1 o2.
  rewrite (for_loop_step _ _ _ _ _ _ _ _ _ Hp1), (for_loop_step _ _ _ _ _ _ _ _ _ Hp2).
  destruct (loop_body m (answer (post_request cfg request m))); try done.
  destruct (IH last_error w1' w2') as [Hv Hc]. cbn [value calls logged].
  by rewrite Hv, Hc.
Qed.

(** C9: against a deterministic stub upstream, one whose answer to a post
    depends on the request only, two runs of [generate] on the same
    request give the same result and make the same posts with the same
    outcomes, hence equally many, whatever state the stub is in at the
    start of each run (in particular when the second run follows the
    first). *)
Theorem generate_deterministic answer request w1 w2 :
  (∀ rq w, (post rq w).1 = answer rq) →
  value (generate post cfg request w1) = value (generate post cfg request w2) ∧
  calls (generate post cfg request w1) = calls (generate post cfg request w2) ∧
  length (calls (generate post cfg request w1)) = length (calls (generate post cfg request w2)).
Proof.
  intros Hdet. rewrite !generate_unfold.
  destruct (MODEL_CANDIDATES cfg) as [|m ms] eqn:Hcs; [done|].
  cbv zeta. cbn [value calls].
  destruct (for_loop_deterministic answer request (m :: ms) Hdet "failed" w1 w2)
    as [Hv Hc].
  by rewrite Hv, Hc.
Qed.

(** C10: a request whose [max_tokens] is zero or negative is not
    rejected: with a candidate configured, the first candidate is posted
    as for any other request, and every post carries
    min(requested, ceiling), a non-positive value, which is the requested
    value itself whenever the ceiling is positive. *)
Theorem generate_nonpositive_max_tokens request w model rest :
  max_tokens request ≤ 0 →
  MODEL_CANDIDATES cfg = model :: rest →
  ∃ sent tl,
    sent = Z.min (max_tokens request) (MAX_OUTPUT_TOKENS cfg) ∧
    sent ≤ 0 ∧
    (0 < MAX_OUTPUT_TOKENS cfg → sent = max_tokens request) ∧
    calls (generate post cfg request w) =
      (post_request cfg request model, (post (post_request cfg request model) w).1) :: tl ∧
    Forall (λ c, post_json c.1 !! "max_tokens" = Some (PyInt sent))
           (calls (generate post cfg request w)).
Proof.
  intros Hle Hcs.
  assert (∃ tl, calls (generate post cfg request w) =
            (post_request cfg request model,
             (post (post_request cfg request model) w).1) :: tl) as [tl Htl].
  { rewrite generate_unfold, Hcs. cbv zeta. cbn [calls].
    destruct (post (post_request cfg request model) w) as [o w'] eqn:Hp.
    rewrite (for_loop_step _ _ _ _ _ _ _ _ _ Hp).
    destruct (loop_body model o); cbn [calls logged fst]; eauto. }
  exists (Z.min (max_tokens request) (MAX_OUTPUT_TOKENS cfg)), tl.
  split; [done|]. split; [lia|]. split; [lia|]. split; [done|].
  eapply Forall_impl; [apply generate_posts|].
  intros c (model' & _ & ->). apply payload_max_tokens_lookup.
Qed.
End Endpoint.

(** ** Text extraction on incomplete bodies *)

Lemma extract_text_absent_choices d :
  d !! "choices" = None → extract_text (PyDict d) = Return (PyStr "").
Proof. intros H. unfold extract_text. simpl. by rewrite H. Qed.

Lemma extract_text_absent_message d rest first :
  d !! "choices" = Some (PyList (PyDict first :: rest)) →
  first !! "message" = None →
  extract_text (PyDict d) = Return (PyStr "").
Proof. intros H1 H2. unfold extract_text. simpl. rewrite H1. simpl. by rewrite H2. Qed.

Lemma extract_text_absent_content d rest first message :
  d !! "choices" = Some (PyList (PyDict first :: rest)) →
  first !! "message" = Some (PyDict message) →
  message !! "content" = None →
  extract_text (PyDict d) = Return (PyStr "").
Proof.
  intros H1 H2 H3. unfold extract_text. simpl. rewrite H1. simpl. rewrite H2.
  simpl. by rewrite H3.
Qed.

Lemma extract_text_empty_choices d :
  d !! "choices" = Some (PyList []) → extract_text (PyDict d) = Raise IndexError.
Proof. intros H. unfold extract_text. simpl. by rewrite H. Qed.

(** ** Concrete runs *)

(** The rows of the table, one outcome each; a timeout is also a
    transport failure and the first row wins. *)
Example classify_rows :
  classify (Raised TimeoutException) = Some (ContinueRecording "timeout") ∧
  transport_failure (Raised TimeoutException) = true ∧
  classify (Raised RequestError) = Some (ContinueRecording "upstream_error") ∧
  classify (ok (completion (PyStr "hello"))) = Some StopSuccess ∧
  classify (ok (completion (PyStr ""))) = Some (StopFailure "failed") ∧
  classify (ok (PyDict ∅)) = Some (StopFailure "failed") ∧
  classify (status_only 429) = Some (ContinueRecording "rate_limited") ∧
  classify (status_only 503) = Some (ContinueRecording "upstream_error") ∧
  classify (status_only 400) = Some (StopFailure "failed") ∧
  classify (status_only 204) = Some (StopFailure "failed") ∧
  classify (ok empty_choices) = Some (StopFailure "failed") ∧
  classify (ok PyNone) = Some (StopFailure "failed") ∧
  classify (Raised InvalidURL) = None.
Proof. repeat split. Qed.

(** C5: an HTTP 200 response whose body is [{"choices": []}] makes the
    extraction raise [IndexError], and the exception leaves [generate]:
    no result is returned, after the one post for the first candidate. *)
Theorem generate_empty_choices_raises :
  extract_text empty_choices = Raise IndexError ∧
  value (generate scripted demo_cfg demo_request first_malformed) = Raise IndexError ∧
  length (calls (generate scripted demo_cfg demo_request first_malformed)) = 1%nat.
Proof. repeat split. Qed.

Lemma generate_first_success_witness :
  value (generate scripted demo_cfg demo_request second_succeeds) =
    Return (Success (PyStr "hello") "backup") ∧
  calls (generate scripted demo_cfg demo_request second_succeeds) =
    zip (post_request demo_cfg demo_request <$> take 2 (MODEL_CANDIDATES demo_cfg))
        (take 2 (replies scripted (posts demo_cfg demo_request) second_succeeds)).
Proof.
  apply (generate_first_success scripted demo_cfg demo_request second_succeeds
           1 "backup"
           {| status_code := 200; json := Return (completion (PyStr "hello")) |}
           "hello");
    [reflexivity | vm_compute; repeat constructor | reflexivity | reflexivity
    | reflexivity | discriminate].
Defined.

Lemma generate_all_transient_witness :
  ∃ o kind,
    last (replies scripted (posts demo_cfg demo_request) all_transient) = Some o ∧
    classify o = Some (ContinueRecording kind) ∧
    value (generate scripted demo_cfg demo_request all_transient) =
      Return (Failure kind) ∧
    calls (generate scripted demo_cfg demo_request all_transient) =
      zip (posts demo_cfg demo_request)
          (replies scripted (posts demo_cfg demo_request) all_transient) ∧
    length (calls (generate scripted demo_cfg demo_request all_transient)) =
      length (MODEL_CANDIDATES demo_cfg).
Proof.
  apply (generate_all_transient scripted demo_cfg demo_request all_transient);
    [discriminate | vm_compute; repeat constructor].
Defined.

(** C3: the loop does not follow the decision table on an HTTP 200
    whose body cannot be unpacked.  For the body [{"choices": []}] the
    table's row for a success status with an empty or absent body asks to
    stop with Failure(failed); the code leaves the iteration, and
    [generate], with [IndexError]. *)
Theorem decision_table_empty_body_diverges :
  classify (ok empty_choices) = Some (StopFailure "failed") ∧
  loop_body "backup" (ok empty_choices) = Propagate IndexError ∧
  value (generate scripted demo_cfg demo_request second_malformed) = Raise IndexError ∧
  value (generate scripted demo_cfg demo_request second_malformed) ≠
    Return (Failure "failed").
Proof. repeat split. intros H. vm_compute in H. discriminate. Qed.

(** On the empty candidate list the kind returned is [failed], not a
    kind of its own. *)
Lemma generate_no_candidates_counterexample :
  ¬ (value (generate scripted (sample_cfg [] 600) demo_request []) =
       Return (Failure "no_candidates") ∧
     calls (generate scripted (sample_cfg [] 600) demo_request []) = []).
Proof.
  intros [H _].
  apply (f_equal (λ r : res (gmap string pyval),
                    match r with Return d => d !! "error_type" | Raise _ => None end)) in H.
  vm_compute in H. discriminate.
Qed.

Lemma generate_no_candidates_witness :
  generate scripted (sample_cfg [] 600) demo_request all_transient =
    mkRun (Return (Failure "failed")) all_transient [].
Proof. apply (generate_no_candidates scripted (sample_cfg [] 600)). reflexivity. Defined.



(** C8: a run whose second candidate answers HTTP 200 with the body
    [{"choices": []}] returns no result at all: [generate] raises
    [IndexError], so the outcome has neither of the two result shapes. *)
Theorem generate_malformed_no_result :
  value (generate scripted demo_cfg demo_request malformed_after_rate_limit) =
    Raise IndexError ∧
  ∀ d, value (generate scripted demo_cfg demo_request malformed_after_rate_limit) ≠
         Return d.
Proof. split; [reflexivity|]. intros d H. vm_compute in H. discriminate. Qed.

Lemma generate_deterministic_witness :
  value (generate (stub by_model) demo_cfg demo_request 0%nat) =
    value (generate (stub by_model) demo_cfg demo_request
             (world (generate (stub by_model) demo_cfg demo_request 0%nat))) ∧
  calls (generate (stub by_model) demo_cfg demo_request 0%nat) =
    calls (generate (stub by_model) demo_cfg demo_request
             (world (generate (stub by_model) demo_cfg demo_request 0%nat))) ∧
  length (calls (generate (stub by_model) demo_cfg demo_request 0%nat)) =
    length (calls (generate (stub by_model) demo_cfg demo_request
                     (world (generate (stub by_model) demo_cfg demo_request 0%nat)))).
Proof.
  apply (generate_deterministic (stub by_model) demo_cfg by_model demo_request).
  intros rq w. reflexivity.
Defined.

Lemma generate_nonpositive_max_tokens_witness :
  ∃ sent tl,
    sent = Z.min (max_tokens nonpositive_request) (MAX_OUTPUT_TOKENS demo_cfg) ∧
    sent ≤ 0 ∧
    (0 < MAX_OUTPUT_TOKENS demo_cfg → sent = max_tokens nonpositive_request) ∧
    calls (generate scripted demo_cfg nonpositive_request second_rejected) =
      (post_request demo_cfg nonpositive_request "primary",
       (scripted (post_request demo_cfg nonpositive_request "primary")
                 second_rejected).1) :: tl ∧
    Forall (λ c, post_json c.1 !! "max_tokens" = Some (PyInt sent))
           (calls (generate scripted demo_cfg nonpositive_request second_rejected)).
Proof.
  apply (generate_nonpositive_max_tokens scripted demo_cfg nonpositive_request
           second_rejected "primary" ["backup"; "spare"]); [simpl; lia | reflexivity].
Defined.

(** ** Startup: stripping and splitting *)

Lemma all_chars_lstrip p s : all_chars p s = true → all_chars p (py_lstrip s) = true.
Proof.
  induction s as [|c s IH]; [done|]. simpl.
  destruct (py_isspace c); [|done].
  intros H. apply andb_true_iff in H as [_ H]. by apply IH.
Qed.

Lemma rstrip_empty_iff s : py_rstrip s = "" ↔ blank s = true.
Proof.
  unfold blank. induction s as [|c s IH]; [done|]. simpl.
  destruct (py_rstrip s) as [|a r].
  - assert (all_chars py_isspace s = true) as -> by by apply IH.
    rewrite andb_true_r. by destruct (py_isspace c).
  - split; [done|]. intros H. apply andb_true_iff in H as [_ H].
    by apply IH in H.
Qed.

Lemma all_chars_rstrip p s : all_chars p s = true → all_chars p (py_rstrip s) = true.
Proof.
  induction s as [|c s IH]; [done|]. simpl.
  intros H. apply andb_true_iff in H as [Hc H]. specialize (IH H).
  destruct (py_rstrip s) as [|a r].
  - destruct (py_isspace c); [done|]. simpl. by rewrite Hc.
  - simpl in *. by rewrite Hc, IH.
Qed.

Lemma blank_lstrip s : blank (py_lstrip s) = blank s.
Proof.
  unfold blank. induction s as [|c s IH]; [done|]. simpl.
  destruct (py_isspace c) eqn:Hc; [done|]. simpl. by rewrite Hc.
Qed.

Lemma strip_empty_iff s : py_strip s = "" ↔ blank s = true.
Proof. unfold py_strip. by rewrite rstrip_empty_iff, blank_lstrip. Qed.

Lemma strip_eqb_blank s : String.eqb (py_strip s) "" = blank s.
Proof.
  destruct (blank s) eqn:Hb.
  - apply String.eqb_eq. by apply strip_empty_iff.
  - apply String.eqb_neq. intros H. apply strip_empty_iff in H. congruence.
Qed.

Lemma rstrip_idempotent s : py_rstrip (py_rstrip s) = py_rstrip s.
Proof.
  induction s as [|c s IH]; [done|]. simpl.
  destruct (py_rstrip s) as [|a r] eqn:Hr.
  - destruct (py_isspace c) eqn:Hc; [done|]. simpl. by rewrite Hc.
  - change (py_rstrip (String c (String a r)))
      with (match py_rstrip (String a r) with
            | EmptyString => if py_isspace c then EmptyString else String c EmptyString
            | r' => String c r'
            end).
    by rewrite IH.
Qed.

Lemma lstrip_no_leading_space s : no_leading_space (py_lstrip s) = true.
Proof.
  induction s as [|c s IH]; [done|]. simpl.
  destruct (py_isspace c) eqn:Hc; [done|]. simpl. by rewrite Hc.
Qed.

Lemma lstrip_fixed s : no_leading_space s = true → py_lstrip s = s.
Proof. destruct s as [|c s]; [done|]. simpl. by destruct (py_isspace c). Qed.

Lemma rstrip_no_leading_space s :
  no_leading_space s = true → no_leading_space (py_rstrip s) = true.
Proof.
  destruct s as [|c s]; [done|]. simpl. intros Hc.
  destruct (py_rstrip s); [|done].
  destruct (py_isspace c) eqn:E; [done|]. simpl. by rewrite E.
Qed.

Lemma strip_idempotent s : py_strip (py_strip s) = py_strip s.
Proof.
  unfold py_strip.
  rewrite (lstrip_fixed (py_rstrip (py_lstrip s))).
  - apply rstrip_idempotent.
  - apply rstrip_no_leading_space, lstrip_no_leading_space.
Qed.

Lemma comma_free_strip s : comma_free s = true → comma_free (py_strip s) = true.
Proof. intros H. by apply all_chars_rstrip, all_chars_lstrip. Qed.

Lemma split_comma_nonempty s : py_split_comma s ≠ [].
Proof.
  destruct s as [|c s]; [done|]. simpl.
  destruct (Ascii.eqb c ","); [done|]. by destruct (py_split_comma s).
Qed.

Lemma split_comma_pieces s : Forall (λ piece, comma_free piece = true) (py_split_comma s).
Proof.
  induction s as [|c s IH]; simpl.
  - by repeat constructor.
  - destruct (Ascii.eqb c ",") eqn:Hc.
    + by constructor.
    + destruct (py_split_comma s) as [|piece pieces].
      * repeat constructor. unfold comma_free. simpl. by rewrite Hc.
      * apply Forall_cons in IH as [Hp Hps]. constructor; [|done].
        unfold comma_free in *. simpl. by rewrite Hc, Hp.
Qed.

Lemma split_comma_app s1 s2 :
  py_split_comma (s1 +:+ String "," s2) =
    (py_split_comma s1 ++ py_split_comma s2)%list.
Proof.
  induction s1 as [|c s1 IH]; [done|]. simpl.
  destruct (Ascii.eqb c ","); [by rewrite IH|].
  rewrite IH. pose proof (split_comma_nonempty s1).
  by destruct (py_split_comma s1).
Qed.

Lemma split_comma_free s : comma_free s = true → py_split_comma s = [s].
Proof.
  unfold comma_free. induction s as [|c s IH]; [done|]. simpl.
  intros H. apply andb_true_iff in H as [Hc H].
  apply negb_true_iff in Hc. rewrite Hc, (IH H). done.
Qed.

Lemma stripped_items_app l1 l2 :
  stripped_items (l1 ++ l2)%list = (stripped_items l1 ++ stripped_items l2)%list.
Proof.
  induction l1 as [|item l1 IH]; [done|]. simpl.
  destruct (String.eqb (py_strip item) ""); [done|]. by rewrite IH.
Qed.

Lemma stripped_items_nil_iff items :
  stripped_items items = [] ↔ Forall (λ item, blank item = true) items.
Proof.
  induction items as [|item items IH]; [done|]. simpl.
  rewrite strip_eqb_blank, Forall_cons. destruct (blank item).
  - rewrite IH. tauto.
  - split; [done|]. intros [? _]. done.
Qed.

Lemma split_comma_blank_pieces s :
  Forall (λ piece, blank piece = true) (py_split_comma s) ↔
  all_chars (λ c, Ascii.eqb c "," || py_isspace c) s = true.
Proof.
  induction s as [|c s IH]; simpl.
  - split; [done|]. intros _. by repeat constructor.
  - destruct (Ascii.eqb c ",") eqn:Hc; simpl.
    + rewrite Forall_cons, IH. split; [by intros [_ ?]|done].
    + pose proof (split_comma_nonempty s) as Hne.
      destruct (py_split_comma s) as [|piece pieces]; [done|].
      rewrite Forall_cons in IH |- *. unfold blank in *. simpl.
      rewrite !andb_true_iff, <- IH. tauto.
Qed.

(** ** Startup: [get_env], the candidate list, the configuration *)

Lemma get_env_inl environ name dflt e :
  get_env environ name dflt = inl e ↔
  e = RuntimeError ("Missing env: " +:+ name) ∧
  match environ !! name with
  | Some v => blank v = true
  | None => match dflt with Some v => blank v = true | None => True end
  end.
Proof.
  unfold get_env.
  destruct (environ !! name) as [v|]; [|destruct dflt as [v|]];
    try rewrite strip_eqb_blank; try destruct (blank v);
    split; (intros [= <-] || intros [-> ?]); done.
Qed.

(** X1: [get_env] fails exactly when the variable is set to a blank
    value, or is unset and the default is absent or blank; the error is
    always [RuntimeError("Missing env: <name>")].  A variable that is set
    hides the default, so a blank value fails even when a usable default
    was given. *)
Theorem get_env_error_iff environ name dflt e :
  get_env environ name dflt = inl e ↔
  e = RuntimeError ("Missing env: " +:+ name) ∧
  match environ !! name with
  | Some v => blank v = true
  | None => match dflt with Some v => blank v = true | None => True end
  end.
Proof. apply get_env_inl. Qed.

Lemma get_env_inr environ name dflt v :
  get_env environ name dflt = inr v ↔
  (environ !! name = Some v ∨ environ !! name = None ∧ dflt = Some v) ∧
  blank v = false.
Proof.
  unfold get_env.
  destruct (environ !! name) as [v'|]; [|destruct dflt as [v'|]];
    try rewrite strip_eqb_blank; try destruct (blank v') eqn:Hb.
  all: split; [intros [= <-]; eauto | intros [[H|[H1 H2]] Hv]; simplify_eq; congruence].
Qed.

(** X2: when [get_env] returns, the value is the variable's own value
    if it is set and the default otherwise, it is returned as it is (not
    stripped), and it has a character that is not whitespace. *)
Theorem get_env_ok_iff environ name dflt v :
  get_env environ name dflt = inr v ↔
  (environ !! name = Some v ∨ environ !! name = None ∧ dflt = Some v) ∧
  blank v = false.
Proof. apply get_env_inr. Qed.

Lemma stripped_items_wellformed items :
  Forall (λ item, comma_free item = true) items →
  Forall (λ name, name ≠ "" ∧ py_strip name = name ∧ comma_free name = true)
         (stripped_items items).
Proof.
  induction 1 as [|item items Hc _ IH]; simpl; [constructor|].
  destruct (String.eqb (py_strip item) "") eqn:He; [done|].
  constructor; [|done]. apply String.eqb_neq in He.
  split; [done|]. split; [apply strip_idempotent|by apply comma_free_strip].
Qed.

(** X3: every candidate parsed from the [MODEL_CANDIDATES] value is
    non-empty, has no whitespace at either end (stripping it again
    changes nothing) and contains no comma. *)
Theorem parse_candidates_wellformed value :
  Forall (λ name, name ≠ "" ∧ py_strip name = name ∧ comma_free name = true)
         (parse_candidates value).
Proof. apply stripped_items_wellformed, split_comma_pieces. Qed.

(** X4: the parsed candidate list is empty exactly when the value
    consists of commas and whitespace only; a value such as [","] passes
    [get_env] and still configures no candidate. *)
Theorem parse_candidates_nil_iff value :
  parse_candidates value = [] ↔
  all_chars (λ c, Ascii.eqb c "," || py_isspace c) value = true.
Proof.
  unfold parse_candidates. by rewrite stripped_items_nil_iff, split_comma_blank_pieces.
Qed.

Lemma parse_candidates_cat s1 s2 :
  parse_candidates (s1 +:+ String "," s2) =
    (parse_candidates s1 ++ parse_candidates s2)%list.
Proof. unfold parse_candidates. by rewrite split_comma_app, stripped_items_app. Qed.

(** X5: parsing the value [s1 + "," + s2] gives the candidates of [s1]
    followed by those of [s2]. *)
Theorem parse_candidates_app s1 s2 :
  parse_candidates (s1 +:+ String "," s2) =
    (parse_candidates s1 ++ parse_candidates s2)%list.
Proof. apply parse_candidates_cat. Qed.

Lemma parse_candidates_one name :
  name ≠ "" → py_strip name = name → comma_free name = true →
  parse_candidates name = [name].
Proof.
  intros Hne Hs Hc. unfold parse_candidates. rewrite (split_comma_free _ Hc).
  simpl. rewrite Hs. apply String.eqb_neq in Hne. by rewrite Hne.
Qed.

(** X6: names that are non-empty, stripped and free of commas survive
    the round trip: joining them with commas and parsing the result gives
    the same list, in the same order, duplicates included. *)
Theorem parse_candidates_join names :
  Forall (λ name, name ≠ "" ∧ py_strip name = name ∧ comma_free name = true) names →
  parse_candidates (py_join_comma names) = names.
Proof.
  induction 1 as [|name names (Hne & Hs & Hc) Hall IH]; [done|].
  destruct names as [|name' names].
  - by apply parse_candidates_one.
  - change (py_join_comma (name :: name' :: names))
      with (name +:+ String "," (py_join_comma (name' :: names))).
    by rewrite parse_candidates_cat, IH, parse_candidates_one.
Qed.

Section StartupProperties.
Variable py_float : string → option spec_float.
Variable py_int : string → option Z.

Lemma load_config_inr environ cfg :
  load_config py_float py_int environ = inr cfg →
  environ !! "OPENROUTER_API_KEY" = Some (OPENROUTER_API_KEY cfg) ∧
  blank (OPENROUTER_API_KEY cfg) = false ∧
  OPENROUTER_BASE_URL cfg =
    default "https://openrouter.ai/api/v1" (environ !! "OPENROUTER_BASE_URL") ∧
  blank (OPENROUTER_BASE_URL cfg) = false ∧
  (∃ v, environ !! "MODEL_CANDIDATES" = Some v ∧ blank v = false ∧
        MODEL_CANDIDATES cfg = parse_candidates v) ∧
  Forall (λ name, name ≠ "" ∧ py_strip name = name ∧ comma_free name = true)
         (MODEL_CANDIDATES cfg) ∧
  py_float (default "30" (environ !! "REQUEST_TIMEOUT_SEC")) =
    Some (REQUEST_TIMEOUT_SEC cfg) ∧
  py_int (default "600" (environ !! "MAX_OUTPUT_TOKENS")) =
    Some (MAX_OUTPUT_TOKENS cfg).
Proof.
  unfold load_config, convert.
  destruct (get_env environ "OPENROUTER_API_KEY" None) as [|key] eqn:Hk; [done|].
  destruct (get_env environ "OPENROUTER_BASE_URL" _) as [|url] eqn:Hu; [done|].
  destruct (get_env environ "MODEL_CANDIDATES" None) as [|cs] eqn:Hc; [done|].
  destruct (get_env environ "REQUEST_TIMEOUT_SEC" _) as [|tt] eqn:Ht; [done|].
  simpl. destruct (py_float tt) as [t|] eqn:Hf; [|done].
  simpl. destruct (get_env environ "MAX_OUTPUT_TOKENS" _) as [|mt] eqn:Hm; [done|].
  simpl. destruct (py_int mt) as [n|] eqn:Hi; [|done].
  simpl. intros [= <-]. simpl.
  apply get_env_inr in Hk as [[Hk|[_ ?]] Hkb]; [|done].
  apply get_env_inr in Hu as [Hu Hub].
  apply get_env_inr in Hc as [[Hc|[_ ?]] Hcb]; [|done].
  apply get_env_inr in Ht as [Ht _].
  apply get_env_inr in Hm as [Hm _].
  repeat split; try done.
  - destruct Hu as [->|[-> [= <-]]]; done.
  - by exists cs.
  - apply stripped_items_wellformed, split_comma_pieces.
  - destruct Ht as [->|[-> [= <-]]]; done.
  - destruct Hm as [->|[-> [= <-]]]; done.
Qed.

(** X7: a configuration that loads holds the API key and base URL as
    they stand in the environment (the URL falling back to its default
    when unset), unstripped but not blank; its candidates are the parsed
    [MODEL_CANDIDATES] value, which is set and not blank, and they are
    well formed; timeout and ceiling are the conversions of the variables
    or of the defaults ["30"] and ["600"]. *)
Theorem load_config_ok environ cfg :
  load_config py_float py_int environ = inr cfg →
  environ !! "OPENROUTER_API_KEY" = Some (OPENROUTER_API_KEY cfg) ∧
  blank (OPENROUTER_API_KEY cfg) = false ∧
  OPENROUTER_BASE_URL cfg =
    default "https://openrouter.ai/api/v1" (environ !! "OPENROUTER_BASE_URL") ∧
  blank (OPENROUTER_BASE_URL cfg) = false ∧
  (∃ v, environ !! "MODEL_CANDIDATES" = Some v ∧ blank v = false ∧
        MODEL_CANDIDATES cfg = parse_candidates v) ∧
  Forall (λ name, name ≠ "" ∧ py_strip name = name ∧ comma_free name = true)
         (MODEL_CANDIDATES cfg) ∧
  py_float (default "30" (environ !! "REQUEST_TIMEOUT_SEC")) =
    Some (REQUEST_TIMEOUT_SEC cfg) ∧
  py_int (default "600" (environ !! "MAX_OUTPUT_TOKENS")) =
    Some (MAX_OUTPUT_TOKENS cfg).
Proof. apply load_config_inr. Qed.

(** X8: when loading fails with a [RuntimeError], its message names one
    of the five variables, [get_env] fails on that variable, and it
    succeeds on every variable read before it: the module reports the
    first missing or blank setting in reading order. *)
Theorem load_config_first_missing environ message :
  load_config py_float py_int environ = inl (RuntimeError message) →
  ∃ before name dflt after,
    settings = (before ++ (name, dflt) :: after)%list ∧
    message = "Missing env: " +:+ name ∧
    get_env environ name dflt = inl (RuntimeError message) ∧
    Forall (λ setting, ∃ v, get_env environ setting.1 setting.2 = inr v) before.
Proof.
  unfold load_config, convert.
  destruct (get_env environ "OPENROUTER_API_KEY" None) as [e|key] eqn:Hk.
  { intros [= ->]. pose proof Hk as [[= ->] _]%get_env_inl.
    by exists [], "OPENROUTER_API_KEY", None, (tail settings). }
  destruct (get_env environ "OPENROUTER_BASE_URL" _) as [e|url] eqn:Hu.
  { intros [= ->]. pose proof Hu as [[= ->] _]%get_env_inl.
    exists (take 1 settings), "OPENROUTER_BASE_URL",
      (Some "https://openrouter.ai/api/v1"), (drop 2 settings).
    repeat split; [done|]. repeat constructor; simpl; eauto. }
  destruct (get_env environ "MODEL_CANDIDATES" None) as [e|cs] eqn:Hc.
  { intros [= ->]. pose proof Hc as [[= ->] _]%get_env_inl.
    exists (take 2 settings), "MODEL_CANDIDATES", None, (drop 3 settings).
    repeat split; [done|]. repeat constructor; simpl; eauto. }
  destruct (get_env environ "REQUEST_TIMEOUT_SEC" _) as [e|tt] eqn:Ht.
  { intros [= ->]. pose proof Ht as [[= ->] _]%get_env_inl.
    exists (take 3 settings), "REQUEST_TIMEOUT_SEC", (Some "30"), (drop 4 settings).
    repeat split; [done|]. repeat constructor; simpl; eauto. }
  simpl. destruct (py_float tt) as [t|]; [|done].
  simpl. destruct (get_env environ "MAX_OUTPUT_TOKENS" _) as [e|mt] eqn:Hm.
  { intros [= ->]. pose proof Hm as [[= ->] _]%get_env_inl.
    exists (take 4 settings), "MAX_OUTPUT_TOKENS", (Some "600"), [].
    repeat split; [done|]. repeat constructor; simpl; eauto. }
  simpl. destruct (py_int mt); done.
Qed.
End StartupProperties.

(** ** Text extraction and response handling, in full *)

(** X9: the extraction returns exactly on these bodies: a dict with no
    ["choices"] (empty text); or a dict whose ["choices"] is a list whose
    first entry is a dict with no ["message"] (empty text) or with a dict
    ["message"], whose ["content"] is returned, the empty text standing in
    when it is absent.  Only the first choice is looked at; on every other
    body the extraction raises. *)
Theorem extract_text_returns_iff data text :
  extract_text data = Return text ↔
  ∃ d, data = PyDict d ∧
    (d !! "choices" = None ∧ text = PyStr "" ∨
     ∃ first rest, d !! "choices" = Some (PyList (PyDict first :: rest)) ∧
       (first !! "message" = None ∧ text = PyStr "" ∨
        ∃ message, first !! "message" = Some (PyDict message) ∧
          text = default (PyStr "") (message !! "content"))).
Proof.
  split.
  - destruct data as [| | | | | |d]; try done. intros H. exists d. split; [done|].
    revert H. unfold extract_text. simpl.
    destruct (d !! "choices") as [choices|]; simpl; [|intros [= <-]; by left].
    intros H. right.
    destruct choices as [| | | |s|l|]; try done; [by destruct s|].
    destruct l as [|first rest]; [done|]. simpl in H.
    destruct first as [| | | | | |first]; try done. exists first, rest.
    split; [done|]. simpl in H.
    destruct (first !! "message") as [message|]; simpl in H; [|injection H as <-; by left].
    right. destruct message as [| | | | | |message]; try done.
    exists message. split; [done|]. by injection H as <-.
  - intros (d & -> & [[Hc ->]|(first & rest & Hc & [[Hm ->]|(message & Hm & ->)])]);
      unfold extract_text; simpl; rewrite Hc; simpl; try rewrite Hm; done.
Qed.

(** X10: the body of a response is read only when its status is 200:
    two responses with the same status other than 200 end the iteration
    the same way whatever [json()] would do on them, and whatever the
    candidate is. *)
Theorem loop_body_ignores_body model model' r r' :
  status_code r = status_code r' →
  status_code r ≠ 200 →
  loop_body model (Responded r) = loop_body model' (Responded r').
Proof.
  intros Hs Hne. simpl. unfold on_response. rewrite <- Hs.
  apply Z.eqb_neq in Hne. by rewrite Hne.
Qed.

Lemma loop_body_Propagate_inv model o e :
  loop_body model o = Propagate e →
  (o = Raised e ∧ isinstance e cls_RequestError = false) ∨
  (∃ r, o = Responded r ∧ status_code r = 200 ∧ json r ≫= extract_text = Raise e).
Proof.
  destruct o as [e'|r]; simpl.
  - left. destruct e'; simpl in *; simplify_eq; done.
  - right. exists r. split; [done|]. revert H. unfold on_response.
    destruct (status_code r =? 200) eqn:E200.
    + apply Z.eqb_eq in E200.
      destruct (json r ≫= extract_text) as [text|e0]; [by destruct (truthy text)|].
      by intros [= <-].
    + destruct (status_code r =? 429); [done|].
      by destruct ((500 <=? status_code r) && (status_code r <? 600)).
Qed.

Lemma Failure_inj kind kind' : Failure kind = Failure kind' → kind = kind'.
Proof.
  intros H. apply (f_equal (λ d : gmap string pyval, d !! "error_type")) in H.
  rewrite !Failure_error_type in H. congruence.
Qed.

Lemma Return_Failure_inj kind kind' :
  Return (Failure kind) = Return (Failure kind') → kind = kind'.
Proof. intros H. apply Failure_inj. congruence. Qed.

Lemma model_dump_inj m1 m2 : model_dump m1 = model_dump m2 → m1 = m2.
Proof.
  unfold model_dump. intros H.
  assert (∀ m, (list_to_map [("role", PyStr (role m)); ("content", PyStr (content m))]
                 : gmap string pyval) !! "role" = Some (PyStr (role m))) as Hr by done.
  assert (∀ m, (list_to_map [("role", PyStr (role m)); ("content", PyStr (content m))]
                 : gmap string pyval) !! "content" = Some (PyStr (content m))) as Hc by done.
  assert (role m1 = role m2) as Hrole.
  { pose proof (Hr m1) as H1. pose proof (Hr m2) as H2.
    assert (Some (PyStr (role m1)) = Some (PyStr (role m2))) by (rewrite <- H1, <- H2; congruence).
    congruence. }
  assert (content m1 = content m2) as Hcontent.
  { pose proof (Hc m1) as H1. pose proof (Hc m2) as H2.
    assert (Some (PyStr (content m1)) = Some (PyStr (content m2))) by (rewrite <- H1, <- H2; congruence).
    congruence. }
  destruct m1, m2. simpl in *. congruence.
Qed.

Lemma model_dumps_inj (l1 : list Message) : ∀ l2 : list Message,
  model_dump <$> l1 = model_dump <$> l2 → l1 = l2.
Proof.
  induction l1 as [|m1 l1 IH]; intros [|m2 l2]; try done.
  rewrite !fmap_cons. intros H.
  f_equal; [apply model_dump_inj; congruence | apply IH; congruence].
Qed.

(** ** Invariants of every run *)

Section RunInvariants.
Context {World : Type}.
Variable post : HttpRequest → World → PostOutcome * World.
Variable cfg : Config.
Variable request : LlmRequest.

Lemma for_loop_followed_transient models : ∀ e w i c,
  calls (for_loop post cfg request models e w) !! i = Some c →
  (S i < length (calls (for_loop post cfg request models e w)))%nat →
  transient c.2 = true.
Proof.
  induction models as [|m ms IH]; intros e w i c; [done|].
  destruct (post (post_request cfg request m) w) as [o w'] eqn:Hp.
  rewrite (for_loop_step _ _ _ _ _ _ _ _ _ Hp).
  destruct (loop_body m o) as [k|k|d|ex] eqn:Hb; cbn [calls logged length];
    try (intros _ ?; lia).
  destruct i as [|i]; simpl.
  - intros [= <-] _. by apply loop_body_Continue in Hb as [? _].
  - intros Hl Hlen. apply (IH k w' i c Hl). lia.
Qed.

Lemma for_loop_end_kind models : ∀ e w kind,
  value (for_loop post cfg request models e w) = LoopEnd kind →
  match last (calls (for_loop post cfg request models e w)) with
  | None => models = [] ∧ kind = e
  | Some c => classify c.2 = Some (ContinueRecording kind) ∨
              classify c.2 = Some (StopFailure kind)
  end.
Proof.
  induction models as [|m ms IH]; intros e w kind; [by intros [= <-]|].
  destruct (post (post_request cfg request m) w) as [o w'] eqn:Hp.
  rewrite (for_loop_step _ _ _ _ _ _ _ _ _ Hp).
  destruct (loop_body m o) as [k|k|d|ex] eqn:Hb; cbn [value calls logged exit_of];
    try done.
  - intros Hv. specialize (IH k w' kind Hv).
    destruct (calls (for_loop post cfg request ms k w')) as [|c' l].
    + destruct IH as [_ ->]. left. by apply loop_body_Continue in Hb as (_ & ? & _).
    + rewrite last_cons_cons.
      destruct (last (c' :: l)) eqn:Hl; [exact IH|]. by apply last_None in Hl.
  - intros [= <-]. simpl. right. by apply loop_body_Break in Hb as [_ ?].
Qed.

Lemma for_loop_raise_origin models : ∀ e w ex,
  value (for_loop post cfg request models e w) = LoopRaise ex →
  ∃ model o, model ∈ models ∧
    last (calls (for_loop post cfg request models e w)) =
      Some (post_request cfg request model, o) ∧
    loop_body model o = Propagate ex.
Proof.
  induction models as [|m ms IH]; intros e w ex; [done|].
  destruct (post (post_request cfg request m) w) as [o w'] eqn:Hp.
  rewrite (for_loop_step _ _ _ _ _ _ _ _ _ Hp).
  destruct (loop_body m o) as [k|k|d|ex'] eqn:Hb; cbn [value calls logged exit_of];
    try done.
  - intros Hv. destruct (IH k w' ex Hv) as (model & o' & Hin & Hl & Hbm).
    exists model, o'. split; [by apply list_elem_of_further|]. split; [|done].
    destruct (calls (for_loop post cfg request ms k w')); [done|]. exact Hl.
  - intros [= <-]. exists m, o. split; [apply list_elem_of_here|done].
Qed.

Lemma for_loop_retryable_exhausted models : ∀ e w kind,
  value (for_loop post cfg request models e w) = LoopEnd kind →
  kind ≠ "failed" →
  (calls (for_loop post cfg request models e w)).*1 =
    post_request cfg request <$> models.
Proof.
  induction models as [|m ms IH]; intros e w kind; [done|].
  destruct (post (post_request cfg request m) w) as [o w'] eqn:Hp.
  rewrite (for_loop_step _ _ _ _ _ _ _ _ _ Hp).
  destruct (loop_body m o) as [k|k|d|ex] eqn:Hb; cbn [value calls logged exit_of];
    try done.
  - intros Hv Hne. rewrite !fmap_cons. simpl. f_equal. by apply (IH k w' kind).
  - intros [= <-] Hne. by apply loop_body_Break in Hb as [? _].
Qed.

Lemma for_loop_posts_first m ms e w :
  calls (for_loop post cfg request (m :: ms) e w) ≠ [].
Proof.
  destruct (post (post_request cfg request m) w) as [o w'] eqn:Hp.
  rewrite (for_loop_step _ _ _ _ _ _ _ _ _ Hp).
  by destruct (loop_body m o).
Qed.

(** X11: whatever the upstream does, the posts of a run are the requests
    for the first [n] candidates, in list order and one each, answered by
    the upstream in that order; [n] is at most the number of candidates
    and at least one when there is a candidate. *)
Theorem generate_calls_prefix w :
  ∃ n, (n ≤ length (MODEL_CANDIDATES cfg))%nat ∧
    (MODEL_CANDIDATES cfg ≠ [] → (1 ≤ n)%nat) ∧
    (calls (generate post cfg request w)).*1 =
      post_request cfg request <$> take n (MODEL_CANDIDATES cfg) ∧
    (calls (generate post cfg request w)).*2 =
      take n (replies post (posts cfg request) w).
Proof.
  unfold posts. rewrite generate_unfold.
  pose proof (length_replies post (post_request cfg request <$> MODEL_CANDIDATES cfg) w)
    as Hlen.
  destruct (MODEL_CANDIDATES cfg) as [|m ms] eqn:Hcs.
  { exists 0%nat. done. }
  cbv zeta. cbn [calls].
  destruct (for_loop_calls post cfg request (m :: ms) "failed" w) as (n & Hn & Hc).
  pose proof (for_loop_posts_first m ms "failed" w) as Hne.
  rewrite length_fmap in Hlen.
  exists n. split; [done|]. split.
  { intros _. destruct n; [|lia]. by rewrite Hc in Hne. }
  rewrite Hc. split.
  - apply fst_zip. rewrite length_fmap, !length_take, Hlen. lia.
  - apply snd_zip. rewrite length_fmap, !length_take, Hlen. lia.
Qed.

(** X12: the loop goes on to the next candidate only after a transient
    outcome: every post of a run that is followed by another post met a
    timeout, a transport error, a 429 or a 5xx. *)
Theorem generate_followed_transient w i c :
  calls (generate post cfg request w) !! i = Some c →
  (S i < length (calls (generate post cfg request w)))%nat →
  transient c.2 = true.
Proof.
  rewrite generate_unfold.
  destruct (MODEL_CANDIDATES cfg) as [|m ms]; [done|].
  cbv zeta. cbn [calls]. apply for_loop_followed_transient.
Qed.

(** X13: the kind of a Failure is the one recorded for the last post of
    the run, whether that outcome was transient or terminal; errors of
    earlier candidates are overwritten.  With no post at all the list of
    candidates is empty and the kind is [failed]. *)
Theorem generate_failure_kind w kind :
  value (generate post cfg request w) = Return (Failure kind) →
  match last (calls (generate post cfg request w)) with
  | None => MODEL_CANDIDATES cfg = [] ∧ kind = "failed"
  | Some c => classify c.2 = Some (ContinueRecording kind) ∨
              classify c.2 = Some (StopFailure kind)
  end.
Proof.
  rewrite generate_unfold.
  destruct (MODEL_CANDIDATES cfg) as [|m ms] eqn:Hcs.
  { intros H. apply Return_Failure_inj in H as <-. done. }
  cbv zeta. cbn [value calls]. intros Hv.
  pose proof (for_loop_end_kind (m :: ms) "failed" w kind) as Hk.
  pose proof (for_loop_posts_first m ms "failed" w) as Hne.
  destruct (value (for_loop post cfg request (m :: ms) "failed" w)) as [k|d|ex] eqn:Hx.
  - apply Return_Failure_inj in Hv as ->. specialize (Hk eq_refl).
    destruct (last (calls (for_loop post cfg request (m :: ms) "failed" w))); [done|].
    by destruct Hk.
  - exfalso.
    assert (He : "failed" ∈ taxonomy) by (unfold taxonomy; in_list).
    pose proof (for_loop_exit post cfg request (m :: ms) "failed" w He) as Hex.
    rewrite Hx in Hex. destruct Hex as (? & ? & ? & _ & _ & _ & _ & _ & ->).
    simpl in Hv. symmetry in Hv. by apply Return_Failure_not_Success in Hv.
  - done.
Qed.

(** X14: a Failure whose kind is not [failed] (that is [timeout],
    [upstream_error] or [rate_limited]) is returned only after every
    candidate has been posted, in list order. *)
Theorem generate_retryable_kind_exhausted w kind :
  value (generate post cfg request w) = Return (Failure kind) →
  kind ≠ "failed" →
  (calls (generate post cfg request w)).*1 = posts cfg request ∧
  length (calls (generate post cfg request w)) = length (MODEL_CANDIDATES cfg).
Proof.
  unfold posts. rewrite generate_unfold.
  destruct (MODEL_CANDIDATES cfg) as [|m ms] eqn:Hcs.
  { intros H Hne. by apply Return_Failure_inj in H as <-. }
  cbv zeta. cbn [value calls]. intros Hv Hne.
  assert (value (for_loop post cfg request (m :: ms) "failed" w) = LoopEnd kind) as Hx.
  { destruct (value (for_loop post cfg request (m :: ms) "failed" w)) as [k|d|ex] eqn:Hx.
    - by apply Return_Failure_inj in Hv as ->.
    - exfalso.
      assert (He : "failed" ∈ taxonomy) by (unfold taxonomy; in_list).
      pose proof (for_loop_exit post cfg request (m :: ms) "failed" w He) as Hex.
      rewrite Hx in Hex. destruct Hex as (? & ? & ? & _ & _ & _ & _ & _ & ->).
      simpl in Hv. symmetry in Hv. by apply Return_Failure_not_Success in Hv.
    - done. }
  pose proof (for_loop_retryable_exhausted (m :: ms) "failed" w kind Hx Hne) as Hc.
  split; [done|].
  rewrite <- (length_fmap fst), Hc, length_fmap. done.
Qed.

(** X15: an exception leaves [generate] only from the last post of the
    run: either [client.post] raised it and it is not an
    [httpx.RequestError], or the response had status 200 and reading or
    unpacking its body raised it.  Timeouts and request errors of
    [client.post] never escape. *)
Theorem generate_raise_origin w ex :
  value (generate post cfg request w) = Raise ex →
  ∃ model o, model ∈ MODEL_CANDIDATES cfg ∧
    last (calls (generate post cfg request w)) =
      Some (post_request cfg request model, o) ∧
    ((o = Raised ex ∧ isinstance ex cls_RequestError = false) ∨
     (∃ r, o = Responded r ∧ status_code r = 200 ∧
           json r ≫= extract_text = Raise ex)).
Proof.
  rewrite generate_unfold.
  destruct (MODEL_CANDIDATES cfg) as [|m ms] eqn:Hcs; [done|].
  cbv zeta. cbn [value calls]. intros Hv.
  pose proof (for_loop_raise_origin (m :: ms) "failed" w ex) as Hr.
  destruct (value (for_loop post cfg request (m :: ms) "failed" w)) as [k|d|ex'];
    try done.
  injection Hv as ->. destruct (Hr eq_refl) as (model & o & Hin & Hl & Hb).
  exists model, o. split; [done|]. split; [done|].
  by apply loop_body_Propagate_inv in Hb.
Qed.

(** X16: the posts of one run differ in the model only: any two of them
    have the same URL, headers and client timeout, and the same payload
    once the ["model"] entry is set aside. *)
Theorem generate_posts_differ_in_model_only w c1 c2 :
  c1 ∈ calls (generate post cfg request w) →
  c2 ∈ calls (generate post cfg request w) →
  post_url c1.1 = post_url c2.1 ∧
  post_headers c1.1 = post_headers c2.1 ∧
  client_timeout c1.1 = client_timeout c2.1 ∧
  delete "model" (post_json c1.1) = delete "model" (post_json c2.1).
Proof.
  pose proof (generate_posts post cfg request w) as Hall.
  rewrite Forall_forall in Hall.
  intros (m1 & _ & ->)%Hall (m2 & _ & ->)%Hall. done.
Qed.
End RunInvariants.

(** X17: two payloads are equal exactly when they were built for the
    same model, from the same list of messages (roles and contents
    included) and with the same capped [max_tokens]; in particular two
    requests with the same messages whose [max_tokens] are both at or above
    the ceiling give equal payloads for a model. *)
Theorem payload_eq_iff cfg r1 r2 model1 model2 :
  (payload cfg r1 model1 = payload cfg r2 model2 ↔
   model1 = model2 ∧ messages r1 = messages r2 ∧
   Z.min (max_tokens r1) (MAX_OUTPUT_TOKENS cfg) =
     Z.min (max_tokens r2) (MAX_OUTPUT_TOKENS cfg)) ∧
  (model1 = model2 → messages r1 = messages r2 →
   MAX_OUTPUT_TOKENS cfg ≤ max_tokens r1 →
   MAX_OUTPUT_TOKENS cfg ≤ max_tokens r2 →
   payload cfg r1 model1 = payload cfg r2 model2).
Proof.
  assert (Hback : model1 = model2 → messages r1 = messages r2 →
            Z.min (max_tokens r1) (MAX_OUTPUT_TOKENS cfg) =
              Z.min (max_tokens r2) (MAX_OUTPUT_TOKENS cfg) →
            payload cfg r1 model1 = payload cfg r2 model2).
  { intros -> Hm Hz. unfold payload. by rewrite Hm, Hz. }
  split; [split|].
  - intros H.
    assert (payload cfg r1 model1 !! "model" = payload cfg r2 model2 !! "model") as Hm
      by by rewrite H.
    assert (payload cfg r1 model1 !! "messages" = payload cfg r2 model2 !! "messages")
      as Hs by by rewrite H.
    assert (payload cfg r1 model1 !! "max_tokens" = payload cfg r2 model2 !! "max_tokens")
      as Ht by by rewrite H.
    change (Some (PyStr model1) = Some (PyStr model2)) in Hm.
    change (Some (PyList (model_dump <$> messages r1)) =
            Some (PyList (model_dump <$> messages r2))) in Hs.
    change (Some (PyInt (Z.min (max_tokens r1) (MAX_OUTPUT_TOKENS cfg))) =
            Some (PyInt (Z.min (max_tokens r2) (MAX_OUTPUT_TOKENS cfg)))) in Ht.
    split; [congruence|]. split; [apply model_dumps_inj; congruence|congruence].
  - intros (Hm & Hs & Hz). by apply Hback.
  - intros Hm Hs H1 H2. apply Hback; [done|done|lia].
Qed.

(** ** Concrete runs of the startup code and of the invariants *)

Lemma get_env_error_iff_witness :
  get_env blank_url_environ "OPENROUTER_BASE_URL" (Some "https://openrouter.ai/api/v1")
    = inl (RuntimeError "Missing env: OPENROUTER_BASE_URL").
Proof.
  apply (proj2 (get_env_error_iff blank_url_environ "OPENROUTER_BASE_URL"
                  (Some "https://openrouter.ai/api/v1") _)).
  split; reflexivity.
Defined.

Lemma get_env_ok_iff_witness :
  get_env demo_environ "OPENROUTER_API_KEY" None = inr " sk-test".
Proof.
  apply (proj2 (get_env_ok_iff demo_environ "OPENROUTER_API_KEY" None " sk-test")).
  split; [left|]; reflexivity.
Defined.

Lemma parse_candidates_nil_iff_witness : parse_candidates only_separators = [].
Proof. apply (proj2 (parse_candidates_nil_iff only_separators)). reflexivity. Defined.

Lemma parse_candidates_join_witness :
  parse_candidates (py_join_comma repeated_names) = repeated_names.
Proof.
  apply (parse_candidates_join repeated_names).
  repeat (constructor; [split; [discriminate|split; reflexivity]|]). constructor.
Defined.

Lemma load_config_ok_witness :
  demo_environ !! "OPENROUTER_API_KEY" = Some (OPENROUTER_API_KEY demo_loaded) ∧
  blank (OPENROUTER_API_KEY demo_loaded) = false ∧
  OPENROUTER_BASE_URL demo_loaded =
    default "https://openrouter.ai/api/v1" (demo_environ !! "OPENROUTER_BASE_URL") ∧
  blank (OPENROUTER_BASE_URL demo_loaded) = false ∧
  (∃ v, demo_environ !! "MODEL_CANDIDATES" = Some v ∧ blank v = false ∧
        MODEL_CANDIDATES demo_loaded = parse_candidates v) ∧
  Forall (λ name, name ≠ "" ∧ py_strip name = name ∧ comma_free name = true)
         (MODEL_CANDIDATES demo_loaded) ∧
  demo_float (default "30" (demo_environ !! "REQUEST_TIMEOUT_SEC")) =
    Some (REQUEST_TIMEOUT_SEC demo_loaded) ∧
  demo_int (default "600" (demo_environ !! "MAX_OUTPUT_TOKENS")) =
    Some (MAX_OUTPUT_TOKENS demo_loaded).
Proof. apply (load_config_ok demo_float demo_int demo_environ demo_loaded). reflexivity. Defined.

Lemma load_config_first_missing_witness :
  ∃ before name dflt after,
    settings = (before ++ (name, dflt) :: after)%list ∧
    "Missing env: OPENROUTER_BASE_URL" = "Missing env: " +:+ name ∧
    get_env blank_url_environ name dflt =
      inl (RuntimeError "Missing env: OPENROUTER_BASE_URL") ∧
    Forall (λ setting, ∃ v, get_env blank_url_environ setting.1 setting.2 = inr v) before.
Proof.
  apply (load_config_first_missing demo_float demo_int blank_url_environ
           "Missing env: OPENROUTER_BASE_URL").
  reflexivity.
Defined.

Lemma extract_text_returns_iff_witness :
  ∃ d, completion (PyStr "hello") = PyDict d ∧
    (d !! "choices" = None ∧ PyStr "hello" = PyStr "" ∨
     ∃ first rest, d !! "choices" = Some (PyList (PyDict first :: rest)) ∧
       (first !! "message" = None ∧ PyStr "hello" = PyStr "" ∨
        ∃ message, first !! "message" = Some (PyDict message) ∧
          PyStr "hello" = default (PyStr "") (message !! "content"))).
Proof.
  apply (proj1 (extract_text_returns_iff (completion (PyStr "hello")) (PyStr "hello"))).
  reflexivity.
Defined.

Lemma loop_body_ignores_body_witness :
  loop_body "primary" (status_only 503) =
    loop_body "backup" (Responded unavailable_with_body).
Proof.
  apply (loop_body_ignores_body "primary" "backup"
           {| status_code := 503; json := Raise JSONDecodeError |} unavailable_with_body);
    [reflexivity | discriminate].
Defined.

Lemma generate_calls_prefix_witness :
  ∃ n, (n ≤ length (MODEL_CANDIDATES demo_cfg))%nat ∧
    (MODEL_CANDIDATES demo_cfg ≠ [] → (1 ≤ n)%nat) ∧
    (calls (generate scripted demo_cfg demo_request second_rejected)).*1 =
      post_request demo_cfg demo_request <$> take n (MODEL_CANDIDATES demo_cfg) ∧
    (calls (generate scripted demo_cfg demo_request second_rejected)).*2 =
      take n (replies scripted (posts demo_cfg demo_request) second_rejected).
Proof. apply (generate_calls_prefix scripted demo_cfg demo_request second_rejected). Defined.

Lemma generate_followed_transient_witness :
  transient (post_request demo_cfg demo_request "primary", status_only 503).2 = true.
Proof.
  apply (generate_followed_transient scripted demo_cfg demo_request second_succeeds
           0%nat (post_request demo_cfg demo_request "primary", status_only 503));
    [reflexivity | vm_compute; lia].
Defined.

Lemma generate_failure_kind_witness :
  match last (calls (generate scripted demo_cfg demo_request all_transient)) with
  | None => MODEL_CANDIDATES demo_cfg = [] ∧ "rate_limited" = "failed"
  | Some c => classify c.2 = Some (ContinueRecording "rate_limited") ∨
              classify c.2 = Some (StopFailure "rate_limited")
  end.
Proof.
  apply (generate_failure_kind scripted demo_cfg demo_request all_transient "rate_limited").
  reflexivity.
Defined.

Lemma generate_retryable_kind_exhausted_witness :
  (calls (generate scripted demo_cfg demo_request all_transient)).*1 =
    posts demo_cfg demo_request ∧
  length (calls (generate scripted demo_cfg demo_request all_transient)) =
    length (MODEL_CANDIDATES demo_cfg).
Proof.
  apply (generate_retryable_kind_exhausted scripted demo_cfg demo_request all_transient
           "rate_limited"); [reflexivity | discriminate].
Defined.

Lemma generate_raise_origin_witness :
  ∃ model o, model ∈ MODEL_CANDIDATES demo_cfg ∧
    last (calls (generate scripted demo_cfg demo_request first_malformed)) =
      Some (post_request demo_cfg demo_request model, o) ∧
    ((o = Raised IndexError ∧ isinstance IndexError cls_RequestError = false) ∨
     (∃ r, o = Responded r ∧ status_code r = 200 ∧
           json r ≫= extract_text = Raise IndexError)).
Proof.
  apply (generate_raise_origin scripted demo_cfg demo_request first_malformed IndexError).
  reflexivity.
Defined.

Lemma generate_posts_differ_in_model_only_witness :
  post_url (post_request demo_cfg demo_request "primary") =
    post_url (post_request demo_cfg demo_request "backup") ∧
  post_headers (post_request demo_cfg demo_request "primary") =
    post_headers (post_request demo_cfg demo_request "backup") ∧
  client_timeout (post_request demo_cfg demo_request "primary") =
    client_timeout (post_request demo_cfg demo_request "backup") ∧
  delete "model" (post_json (post_request demo_cfg demo_request "primary")) =
    delete "model" (post_json (post_request demo_cfg demo_request "backup")).
Proof.
  apply (generate_posts_differ_in_model_only scripted demo_cfg demo_request second_succeeds
           (post_request demo_cfg demo_request "primary", status_only 503)
           (post_request demo_cfg demo_request "backup", ok (completion (PyStr "hello"))));
    vm_compute; in_list.
Defined.

Lemma payload_eq_iff_witness :
  payload demo_cfg demo_request "primary" = payload demo_cfg large_request "primary".
Proof.
  apply (proj2 (payload_eq_iff demo_cfg demo_request large_request "primary" "primary"));
    [reflexivity | reflexivity | simpl; lia | simpl; lia].
Defined.

(** ** From the environment to the posts *)

Section LoadedRun.
Context {World : Type}.
Variable post : HttpRequest → World → PostOutcome * World.
Variable py_float : string → option spec_float.
Variable py_int : string → option Z.

End LoadedRun.

